(** * Doggie age calculator: a shallow embedding of [script.js]

    The script converts a dog's age to a human-equivalent age with
    [16 * ln(dogYears) + 31], shows the result and keeps the birth date,
    the result text and the theme in [localStorage].

    JavaScript numbers are IEEE 754 binary64 values, modelled by Rocq's
    primitive [float]; the DOM, [localStorage], the console and the clock
    form an explicit [World] threaded through a state-and-exception monad.
    Builtins whose result the language leaves to the implementation
    ([Math.log], number formatting, [JSON], date parsing) are fields of the
    [Host] class; [refHost] is an executable instance on which the script
    is run.

    The first part holds the definitions: values, host, world, monad, the
    script, the reference host and the vocabulary of the statements. The
    second part holds the facts on binary64 arithmetic, the effect of each
    function of the script as an equation, and the properties C1 to C10. *)

From Stdlib Require Import ZArith Floats Lia Bool Ascii Decimal DecimalString.
From stdpp Require Import base option list strings gmap fin_maps.

Set Warnings "-inexact-float,-register-all".

(** ** JavaScript values *)

Inductive JSError :=
| SecurityError
| QuotaExceededError
| SyntaxError
| TypeError.

Inductive JSValue :=
| JSUndefined
| JSNull
| JSBool (b : bool)
| JSNumber (n : float)
| JSString (s : string)
| JSArray (elems : list JSValue)
| JSObject (props : list (string * JSValue)).

(** The outcome of evaluating an expression or a statement list. *)
Inductive Completion (A : Type) :=
| Normal (a : A)
| Throw (e : JSError).
Arguments Normal {A} a.
Arguments Throw {A} e.

(** ** The host environment *)

Class Host := {
  (** [Math.log]: an implementation-approximated natural logarithm. *)
  Math_log : float -> float;
  (** [Number.prototype.toFixed]. *)
  Number_toFixed : float -> nat -> string;
  (** [Number(s)] on a string. *)
  String_toNumber : string -> float;
  (** [ToString] on a number, as used by template literals. *)
  Number_toString : float -> string;
  (** [JSON.stringify]; [None] is the result [undefined]. *)
  JSON_stringify : JSValue -> Completion (option string);
  (** [JSON.parse]; it throws a [SyntaxError] on malformed text. *)
  JSON_parse : string -> Completion JSValue;
  (** The time value of [new Date(s)]; NaN for an invalid date. *)
  Date_parse : string -> float;
  (** The value sanitization of the date input element. *)
  input_sanitize : string -> string
}.

(** ** The world: DOM, localStorage, console and clock *)

Record DOM := mkDOM {
  dateInput_value : string;
  resultDiv_textContent : string;
  themeToggle_checked : bool;
  switchText_textContent : string;
  root_data_theme : option string
}.

(** [localStorage]: the stored items, whether the storage can be accessed
    at all (it cannot when the user agent disables it), and how much text,
    keys and values together, it may hold. *)
Record Storage := mkStorage {
  items : gmap string string;
  accessible : bool;
  quota : nat
}.

Record World := mkWorld {
  dom : DOM;
  localStorage : Storage;
  console : list (string * JSError);
  clock : float
}.

Definition with_dom (f : DOM -> DOM) (w : World) : World :=
  mkWorld (f (dom w)) (localStorage w) (console w) (clock w).

Definition with_items (m : gmap string string) (w : World) : World :=
  mkWorld (dom w)
          (mkStorage m (accessible (localStorage w)) (quota (localStorage w)))
          (console w) (clock w).

Definition with_console (l : list (string * JSError)) (w : World) : World :=
  mkWorld (dom w) (localStorage w) l (clock w).

(** ** A state-and-exception monad

    A thrown exception keeps the side effects made before it. *)

Definition JS (A : Type) : Type := World -> Completion A * World.

Definition ret {A} (a : A) : JS A := fun w => (Normal a, w).

Definition bind {A B} (m : JS A) (k : A -> JS B) : JS B :=
  fun w =>
    match m w with
    | (Normal a, w') => k a w'
    | (Throw e, w') => (Throw e, w')
    end.

Definition lift {A} (c : Completion A) : JS A := fun w => (c, w).

Definition try_catch {A} (body : JS A) (handler : JSError -> JS A) : JS A :=
  fun w =>
    match body w with
    | (Normal a, w') => (Normal a, w')
    | (Throw e, w') => handler e w'
    end.

Notation "x <- m ;; k" := (bind m (fun x => k))
  (at level 100, m at next level, right associativity).
Notation "m ;; k" := (bind m (fun _ => k))
  (at level 100, right associativity).

Definition run {A} (m : JS A) (w : World) : World := snd (m w).
Definition result {A} (m : JS A) (w : World) : Completion A := fst (m w).

(** ** Conversions of the language *)

(** [ToBoolean] on a string: only the empty string is falsy. *)
Definition truthy_string (s : string) : bool :=
  match s with
  | EmptyString => false
  | String _ _ => true
  end.

Definition ToBoolean (v : JSValue) : bool :=
  match v with
  | JSUndefined | JSNull => false
  | JSBool b => b
  | JSNumber n => negb (PrimFloat.is_zero n || PrimFloat.is_nan n)
  | JSString s => truthy_string s
  | JSArray _ | JSObject _ => true
  end.

(** Strict equality [===]. Arrays and objects compare by identity; the
    model has no references and a value read from storage is always a fresh
    object, so they are never equal. *)
Definition strict_equal (a b : JSValue) : bool :=
  match a, b with
  | JSUndefined, JSUndefined => true
  | JSNull, JSNull => true
  | JSBool x, JSBool y => Bool.eqb x y
  | JSNumber x, JSNumber y => PrimFloat.eqb x y
  | JSString x, JSString y => String.eqb x y
  | _, _ => false
  end.

(** The keys of the script's items. *)
Module LS_KEYS.
Definition BIRTH : string := "dog_birth_date_v1".
Definition RESULT : string := "dog_human_result_v1".
Definition THEME : string := "dog_theme_v1".
End LS_KEYS.

Section Program.
Context `{Host}.

(** [ToString]; an array joins its elements with commas, printing [null]
    and [undefined] elements as empty. *)
Fixpoint ToString (v : JSValue) : string :=
  match v with
  | JSUndefined => "undefined"
  | JSNull => "null"
  | JSBool true => "true"
  | JSBool false => "false"
  | JSNumber n => Number_toString n
  | JSString s => s
  | JSArray l =>
      (fix join (l : list JSValue) : string :=
         match l with
         | [] => ""
         | x :: rest =>
             let element :=
               match x with
               | JSUndefined | JSNull => ""
               | _ => ToString x
               end in
             match rest with
             | [] => element
             | _ :: _ => element +:+ "," +:+ join rest
             end
         end) l
  | JSObject _ => "[object Object]"
  end.

(** ** Host objects used by the script *)

(** Evaluating the global [localStorage] throws when storage is disabled. *)
Definition get_localStorage : JS Storage :=
  fun w =>
    if accessible (localStorage w) then (Normal (localStorage w), w)
    else (Throw SecurityError, w).

(** The length of a JavaScript string, in UTF-16 code units, of a text held
    in UTF-8: a continuation byte counts nothing, the first byte of a
    character one, and two when the character takes four bytes. *)
Fixpoint utf16_length (s : string) : nat :=
  match s with
  | EmptyString => 0
  | String c r =>
      let n := nat_of_ascii c in
      (if (n <? 128)%nat then 1
       else if (n <? 192)%nat then 0
       else if (n <? 240)%nat then 1
       else 2)
      + utf16_length r
  end.

(** The text a storage holds, keys and values together, in code units. *)
Definition storage_size (m : gmap string string) : nat :=
  map_fold (fun k v n => utf16_length k + utf16_length v + n) 0 m.

(** [Storage.setItem]: the item is stored unless that exceeds the quota. *)
Definition Storage_setItem (key value : string) : JS unit :=
  fun w =>
    let m := <[key := value]> (items (localStorage w)) in
    if Nat.leb (storage_size m) (quota (localStorage w))
    then (Normal tt, with_items m w)
    else (Throw QuotaExceededError, w).

(** [Storage.getItem]: [None] is the result [null] of a missing key. *)
Definition Storage_getItem (key : string) : JS (option string) :=
  fun w => (Normal (items (localStorage w) !! key), w).

Definition console_warn (msg : string) (e : JSError) : JS unit :=
  fun w => (Normal tt, with_console (console w ++ [(msg, e)]) w).

(** [new Date()] read as a time value, in milliseconds. *)
Definition Date_now : JS float := fun w => (Normal (clock w), w).

Definition get_dateInput_value : JS string :=
  fun w => (Normal (dateInput_value (dom w)), w).

Definition set_dateInput_value (v : JSValue) : JS unit :=
  fun w =>
    (Normal tt,
     with_dom (fun d => mkDOM (input_sanitize (ToString v))
                              (resultDiv_textContent d) (themeToggle_checked d)
                              (switchText_textContent d) (root_data_theme d)) w).

Definition set_resultDiv_textContent (v : JSValue) : JS unit :=
  fun w =>
    (Normal tt,
     with_dom (fun d => mkDOM (dateInput_value d) (ToString v)
                              (themeToggle_checked d)
                              (switchText_textContent d) (root_data_theme d)) w).

Definition get_themeToggle_checked : JS bool :=
  fun w => (Normal (themeToggle_checked (dom w)), w).

Definition set_themeToggle_checked (b : bool) : JS unit :=
  fun w =>
    (Normal tt,
     with_dom (fun d => mkDOM (dateInput_value d) (resultDiv_textContent d) b
                              (switchText_textContent d) (root_data_theme d)) w).

Definition set_switchText_textContent (s : string) : JS unit :=
  fun w =>
    (Normal tt,
     with_dom (fun d => mkDOM (dateInput_value d) (resultDiv_textContent d)
                              (themeToggle_checked d) s (root_data_theme d)) w).

(** [root.setAttribute('data-theme', v)]. *)
Definition root_setAttribute_data_theme (v : JSValue) : JS unit :=
  fun w =>
    (Normal tt,
     with_dom (fun d => mkDOM (dateInput_value d) (resultDiv_textContent d)
                              (themeToggle_checked d) (switchText_textContent d)
                              (Some (ToString v))) w).

(** ** The script *)

Definition newline : string := String (Ascii.ascii_of_nat 10) EmptyString.

Local Open Scope float_scope.

(** [dogAgeToHuman]; the result [None] is the [null] of the script. *)
Definition dogAgeToHuman (dogYears : float) : option float :=
  if dogYears <=? 0 then None
  else
    let dogYears := if dogYears <? 0.01 then 0.01 else dogYears in
    Some (16 * Math_log dogYears + 31).

Local Close Scope float_scope.

Definition saveToLS (key : string) (value : JSValue) : JS unit :=
  try_catch
    (_ <- get_localStorage ;;
     text <- lift (JSON_stringify value) ;;
     Storage_setItem key (match text with
                          | Some s => s
                          | None => "undefined"
                          end))
    (fun e => console_warn "LocalStorage 寫入失敗" e).

Definition readFromLS (key : string) : JS JSValue :=
  try_catch
    (_ <- get_localStorage ;;
     raw <- Storage_getItem key ;;
     match raw with
     | Some r => if truthy_string r then lift (JSON_parse r) else ret JSNull
     | None => ret JSNull
     end)
    (fun e => console_warn "LocalStorage 讀取失敗" e ;; ret JSNull).

Definition displayResult (text : string) : JS unit :=
  set_resultDiv_textContent (JSString text) ;;
  saveToLS LS_KEYS.RESULT (JSString text).

Definition performCalculation : JS unit :=
  val <- get_dateInput_value ;;
  if negb (truthy_string val) then displayResult "請輸入有效的出生年月日"
  else
    let birth := Date_parse (val +:+ "T00:00:00") in
    if PrimFloat.is_nan birth then displayResult "請輸入有效的出生年月日"
    else
      now <- Date_now ;;
      let diffMs := (now - birth)%float in
      let years := (diffMs / (1000 * 60 * 60 * 24 * 365.25))%float in
      if (years <=? 0)%float then displayResult "出生日期必須早於現在"
      else
        match dogAgeToHuman years with
        | None => displayResult "計算失敗：輸入值可能不合理"
        | Some humanAge =>
            if PrimFloat.is_nan humanAge || negb (PrimFloat.is_finite humanAge)
            then displayResult "計算失敗：輸入值可能不合理"
            else
              let displayDog := String_toNumber (Number_toFixed years 2) in
              let displayHuman := String_toNumber (Number_toFixed humanAge 1) in
              let text :=
                "狗狗現在大約 " +:+ Number_toString displayDog
                +:+ " 歲的狗年齡，" +:+ newline +:+ "換算成人類大約是 "
                +:+ Number_toString displayHuman +:+ " 歲。" in
              displayResult text
        end.

Definition applyTheme (theme : JSValue) : JS unit :=
  let theme :=
    if negb (strict_equal theme (JSString "dark")) then JSString "light"
    else theme in
  root_setAttribute_data_theme theme ;;
  saveToLS LS_KEYS.THEME theme ;;
  if strict_equal theme (JSString "light")
  then set_themeToggle_checked false ;; set_switchText_textContent "開燈"
  else set_themeToggle_checked true ;; set_switchText_textContent "關燈".

Definition initFromStorage : JS unit :=
  storedBirth <- readFromLS LS_KEYS.BIRTH ;;
  (if ToBoolean storedBirth then set_dateInput_value storedBirth else ret tt) ;;
  storedResult <- readFromLS LS_KEYS.RESULT ;;
  (if ToBoolean storedResult then set_resultDiv_textContent storedResult
   else ret tt) ;;
  t <- readFromLS LS_KEYS.THEME ;;
  let storedTheme := if ToBoolean t then t else JSString "light" in
  applyTheme storedTheme.

(** The handlers registered on [DOMContentLoaded]. *)
Definition onCalculateClick : JS unit :=
  performCalculation ;;
  val <- get_dateInput_value ;;
  if truthy_string val then saveToLS LS_KEYS.BIRTH (JSString val) else ret tt.

Definition onDateChange : JS unit :=
  val <- get_dateInput_value ;;
  if truthy_string val then saveToLS LS_KEYS.BIRTH (JSString val) else ret tt.

Definition onThemeToggleChange : JS unit :=
  checked <- get_themeToggle_checked ;;
  if checked then applyTheme (JSString "dark")
  else applyTheme (JSString "light").

(** The Enter key on the date input clicks the button. *)
Definition onDateKeydown (key : string) : JS unit :=
  if String.eqb key "Enter" then onCalculateClick else ret tt.

End Program.

(** ** A reference host

    An executable host on which the script can be run: a series for the
    logarithm, exact decimal rounding for [toFixed], decimal numbers without
    exponent, JSON on literals, numbers and strings, and ISO dates in UTC.
    It serves to evaluate the statements at concrete inputs and is no model
    of the builtins of a browser beyond them: the logarithm may differ from
    [Math.log] in the last place, numbers are read without exponent and
    with a laxer grammar than that of JSON, arrays and objects are not
    parsed, and a date needs a year of four digits and a day of its month.
    The theorems are stated for every host. *)

Module RefHost.

(** The float nearest to an integer. *)
Definition float_of_Z (z : Z) : float :=
  SF2Prim (binary_normalize prec emax z 0 false).

(** *** Math.log *)

Fixpoint atanh_series (n : nat) (k : Z) (z2 : float) : float :=
  match n with
  | O => 0%float
  | S n' => (1 / float_of_Z (2 * k + 1) + z2 * atanh_series n' (k + 1) z2)%float
  end.

Definition log (x : float) : float :=
  if is_nan x then nan
  else if (x <? 0)%float then nan
  else if (x =? 0)%float then neg_infinity
  else if (x =? infinity)%float then infinity
  else if (x =? 1)%float then 0%float
  else
    let (m, e) := Z.frexp x in
    let z := ((m - 1) / (m + 1))%float in
    (float_of_Z e * 0x1.62e42fefa39efp-1 + 2 * z * atanh_series 20 0 (z * z))%float.

(** *** Numbers and strings *)

Definition decimal (n : Z) : string :=
  NilZero.string_of_uint (N.to_uint (Z.to_N n)).

Fixpoint zeros (k : nat) : string :=
  match k with
  | O => ""
  | S k' => String "0" (zeros k')
  end.

(** [|x| * 10^f] rounded to an integer, a tie going up. *)
Definition scaled (x : spec_float) (f : nat) : Z :=
  match x with
  | S754_finite _ m e =>
      let num := (Zpos m * 10 ^ Z.of_nat f)%Z in
      match e with
      | Zneg p => ((2 * num + 2 ^ Zpos p) / 2 ^ (Zpos p + 1))%Z
      | _ => (num * 2 ^ e)%Z
      end
  | _ => 0%Z
  end.

Definition fixed (x : float) (f : nat) : string :=
  let ds := decimal (scaled (Prim2SF x) f) in
  let ds := zeros (S f - String.length ds) +:+ ds in
  let k := (String.length ds - f)%nat in
  (if (x <? 0)%float then "-" else "")
  +:+ String.substring 0 k ds
  +:+ (match f with O => "" | S _ => "." +:+ String.substring k f ds end).

Definition digit (c : ascii) : option Z :=
  let n := nat_of_ascii c in
  if (48 <=? n)%nat && (n <=? 57)%nat then Some (Z.of_nat (n - 48)) else None.

Fixpoint read_digits (s : string) (acc : Z) (n : nat) : Z * nat * string :=
  match s with
  | String c r =>
      match digit c with
      | Some d => read_digits r (10 * acc + d)%Z (S n)
      | None => (acc, n, s)
      end
  | EmptyString => (acc, n, s)
  end.

Definition parse_unsigned (s : string) : option float :=
  let '(i, ni, r) := read_digits s 0%Z 0%nat in
  match r with
  | EmptyString => if (ni =? 0)%nat then None else Some (float_of_Z i)
  | String c r' =>
      if Ascii.eqb c "." then
        let '(fr, nf, r'') := read_digits r' 0%Z 0%nat in
        match r'' with
        | EmptyString =>
            if (ni + nf =? 0)%nat then None
            else Some (float_of_Z (i * 10 ^ Z.of_nat nf + fr)
                       / float_of_Z (10 ^ Z.of_nat nf))%float
        | String _ _ => None
        end
      else None
  end.

Definition toNumber (s : string) : float :=
  match s with
  | EmptyString => 0%float
  | String c r =>
      if String.eqb s "Infinity" then infinity
      else if String.eqb s "-Infinity" then neg_infinity
      else if Ascii.eqb c "-" then
        match parse_unsigned r with
        | Some x => (- x)%float
        | None => nan
        end
      else
        match parse_unsigned s with
        | Some x => x
        | None => nan
        end
  end.

Fixpoint shortest (fuel k : nat) (x : float) : string :=
  match fuel with
  | O => fixed x k
  | S fuel' =>
      if (toNumber (fixed x k) =? x)%float then fixed x k
      else shortest fuel' (S k) x
  end.

Definition toString (x : float) : string :=
  if is_nan x then "NaN"
  else if (x =? 0)%float then "0"
  else if is_infinity x then (if (x <? 0)%float then "-Infinity" else "Infinity")
  else shortest 20 0 x.

Definition toFixed (x : float) (f : nat) : string :=
  if is_nan x then "NaN"
  else if (1e21 <=? PrimFloat.abs x)%float then toString x
  else fixed x f.

(** *** JSON *)

Definition dquote : ascii := "034".
Definition backslash : ascii := "092".

Definition hex_digit (n : nat) : ascii :=
  if (n <? 10)%nat then ascii_of_nat (48 + n) else ascii_of_nat (87 + n).

Definition hex_value (c : ascii) : option nat :=
  let n := nat_of_ascii c in
  if (48 <=? n)%nat && (n <=? 57)%nat then Some (n - 48)%nat
  else if (97 <=? n)%nat && (n <=? 102)%nat then Some (n - 87)%nat
  else if (65 <=? n)%nat && (n <=? 70)%nat then Some (n - 55)%nat
  else None.

(** [QuoteJSONString] on one character. *)
Definition escape_char (c : ascii) : string :=
  let n := nat_of_ascii c in
  if Ascii.eqb c dquote then String backslash (String dquote "")
  else if Ascii.eqb c backslash then String backslash (String backslash "")
  else if (n =? 8)%nat then String backslash "b"
  else if (n =? 9)%nat then String backslash "t"
  else if (n =? 10)%nat then String backslash "n"
  else if (n =? 12)%nat then String backslash "f"
  else if (n =? 13)%nat then String backslash "r"
  else if (n <? 32)%nat then
    String backslash
      (String "u" (String "0" (String "0"
        (String (hex_digit (n / 16)) (String (hex_digit (n mod 16)) "")))))
  else String c "".

Fixpoint escape (s : string) : string :=
  match s with
  | EmptyString => ""
  | String c r => escape_char c +:+ escape r
  end.

Definition quote (s : string) : string :=
  String dquote (escape s +:+ String dquote "").

Fixpoint stringify (v : JSValue) : option string :=
  match v with
  | JSUndefined => None
  | JSNull => Some "null"
  | JSBool true => Some "true"
  | JSBool false => Some "false"
  | JSNumber n => Some (if is_finite n then toString n else "null")
  | JSString s => Some (quote s)
  | JSArray l =>
      Some ("[" +:+
        (fix elements (l : list JSValue) : string :=
           match l with
           | [] => ""
           | x :: rest =>
               let e := default "null" (stringify x) in
               match rest with
               | [] => e
               | _ :: _ => e +:+ "," +:+ elements rest
               end
           end) l +:+ "]")
  | JSObject l =>
      Some ("{" +:+
        (fix members (l : list (string * JSValue)) (first : bool) : string :=
           match l with
           | [] => ""
           | (k, x) :: rest =>
               match stringify x with
               | Some e =>
                   (if first then "" else ",") +:+ quote k +:+ ":" +:+ e
                   +:+ members rest false
               | None => members rest first
               end
           end) l true +:+ "}")
  end.

(** The character of the escape [\c], for the single-character escapes. *)
Definition unescape (c : ascii) : option ascii :=
  if Ascii.eqb c dquote then Some dquote
  else if Ascii.eqb c backslash then Some backslash
  else if Ascii.eqb c "/" then Some "/"%char
  else if Ascii.eqb c "b" then Some (ascii_of_nat 8)
  else if Ascii.eqb c "t" then Some (ascii_of_nat 9)
  else if Ascii.eqb c "n" then Some (ascii_of_nat 10)
  else if Ascii.eqb c "f" then Some (ascii_of_nat 12)
  else if Ascii.eqb c "r" then Some (ascii_of_nat 13)
  else None.

(** The characters of a string literal after its opening quote, and the
    text after its closing quote. Of the [\uXXXX] escapes only those of
    one-byte characters are read. *)
Fixpoint parse_chars (s : string) : option (string * string) :=
  match s with
  | EmptyString => None
  | String c r =>
      if Ascii.eqb c dquote then Some ("", r)
      else if Ascii.eqb c backslash then
        match r with
        | String e r1 =>
            if Ascii.eqb e "u" then
              match r1 with
              | String h1 (String h2 (String h3 (String h4 r2))) =>
                  match hex_value h1, hex_value h2, hex_value h3, hex_value h4 with
                  | Some 0%nat, Some 0%nat, Some a, Some b =>
                      if (a <? 8)%nat then
                        match parse_chars r2 with
                        | Some (content, rest) =>
                            Some (String (ascii_of_nat (16 * a + b)) content, rest)
                        | None => None
                        end
                      else None
                  | _, _, _, _ => None
                  end
              | _ => None
              end
            else
              match unescape e with
              | Some c' =>
                  match parse_chars r1 with
                  | Some (content, rest) => Some (String c' content, rest)
                  | None => None
                  end
              | None => None
              end
        | EmptyString => None
        end
      else if (nat_of_ascii c <? 32)%nat then None
      else
        match parse_chars r with
        | Some (content, rest) => Some (String c content, rest)
        | None => None
        end
  end.

Definition is_whitespace (c : ascii) : bool :=
  let n := nat_of_ascii c in
  (n =? 32)%nat || (n =? 9)%nat || (n =? 10)%nat || (n =? 13)%nat.

Fixpoint skip_whitespace (s : string) : string :=
  match s with
  | String c r => if is_whitespace c then skip_whitespace r else s
  | EmptyString => s
  end.

(** The characters up to the next white space, and the text from there. *)
Fixpoint token (s : string) : string * string :=
  match s with
  | String c r =>
      if is_whitespace c then ("", s)
      else let (word, rest) := token r in (String c word, rest)
  | EmptyString => ("", s)
  end.

(** A JSON number without an exponent part. *)
Definition parse_number (s : string) : option float :=
  let x := toNumber s in
  match s with
  | String c _ =>
      if (Ascii.eqb c "-" || bool_decide (is_Some (digit c))) && is_finite x
      then Some x else None
  | EmptyString => None
  end.

(** [JSON.parse] on the literals, numbers and strings; the text of an array
    or an object is outside this fragment and rejected like malformed
    text. *)
Definition parse (text : string) : Completion JSValue :=
  match skip_whitespace text with
  | EmptyString => Throw SyntaxError
  | String c r as body =>
      if Ascii.eqb c dquote then
        match parse_chars r with
        | Some (content, rest) =>
            match skip_whitespace rest with
            | EmptyString => Normal (JSString content)
            | String _ _ => Throw SyntaxError
            end
        | None => Throw SyntaxError
        end
      else
        let (word, rest) := token body in
        match skip_whitespace rest with
        | EmptyString =>
            if String.eqb word "null" then Normal JSNull
            else if String.eqb word "true" then Normal (JSBool true)
            else if String.eqb word "false" then Normal (JSBool false)
            else
              match parse_number word with
              | Some x => Normal (JSNumber x)
              | None => Throw SyntaxError
              end
        | String _ _ => Throw SyntaxError
        end
  end.

(** *** Dates, in a host whose local time zone is UTC *)

Definition is_leap (y : Z) : bool :=
  ((y mod 4 =? 0) && negb (y mod 100 =? 0) || (y mod 400 =? 0))%Z.

Definition days_in_month (y m : Z) : Z :=
  if (m =? 2)%Z then (if is_leap y then 29 else 28)%Z
  else if ((m =? 4) || (m =? 6) || (m =? 9) || (m =? 11))%Z then 30%Z
  else 31%Z.

(** Days from 1970-01-01 to the given day of the proleptic Gregorian
    calendar. *)
Definition days_from_civil (y m d : Z) : Z :=
  let y' := (if m <=? 2 then y - 1 else y)%Z in
  let era := (y' / 400)%Z in
  let yoe := (y' - era * 400)%Z in
  let doy := ((153 * (if m <=? 2 then m + 9 else m - 3) + 2) / 5 + d - 1)%Z in
  let doe := (yoe * 365 + yoe / 4 - yoe / 100 + doy)%Z in
  (era * 146097 + doe - 719468)%Z.

(** The fields of [YYYY-MM-DD] followed by [suffix], when they denote a
    day of the calendar. *)
Definition parse_date (s suffix : string) : option (Z * Z * Z) :=
  match s with
  | String y1 (String y2 (String y3 (String y4 (String s1
      (String m1 (String m2 (String s2 (String d1 (String d2 rest))))))))) =>
      match digit y1, digit y2, digit y3, digit y4,
            digit m1, digit m2, digit d1, digit d2 with
      | Some a, Some b, Some c, Some d, Some e, Some f, Some g, Some h =>
          let y := (1000 * a + 100 * b + 10 * c + d)%Z in
          let m := (10 * e + f)%Z in
          let dd := (10 * g + h)%Z in
          if Ascii.eqb s1 "-" && Ascii.eqb s2 "-" && String.eqb rest suffix
             && (1 <=? m)%Z && (m <=? 12)%Z
             && (1 <=? dd)%Z && (dd <=? days_in_month y m)%Z
          then Some (y, m, dd) else None
      | _, _, _, _, _, _, _, _ => None
      end
  | _ => None
  end.

(** [new Date(s)] on the format [YYYY-MM-DDT00:00:00]. *)
Definition date_parse (s : string) : float :=
  match parse_date s "T00:00:00" with
  | Some (y, m, d) => float_of_Z (days_from_civil y m d * 86400000)
  | None => nan
  end.

(** A date input keeps a valid date string and replaces anything else by
    the empty string. *)
Definition sanitize (s : string) : string :=
  match parse_date s "" with
  | Some (y, _, _) => if (0 <? y)%Z then s else ""
  | None => ""
  end.

End RefHost.

#[export] Instance refHost : Host := {|
  Math_log := RefHost.log;
  Number_toFixed := RefHost.toFixed;
  String_toNumber := RefHost.toNumber;
  Number_toString := RefHost.toString;
  JSON_stringify v := Normal (RefHost.stringify v);
  JSON_parse := RefHost.parse;
  Date_parse := RefHost.date_parse;
  input_sanitize := RefHost.sanitize
|}.

(** ** Specification vocabulary *)

(** The laws of JSON the script relies on: a string survives
    [JSON.stringify] followed by [JSON.parse], and the empty text is
    malformed. *)
Class HostLaws (H : Host) : Prop := {
  JSON_string_roundtrip :
    forall s : string, exists text : string,
      JSON_stringify (JSString s) = Normal (Some text) /\
      JSON_parse text = Normal (JSString s);
  JSON_parse_empty : exists e : JSError, JSON_parse "" = Throw e
}.

(** A finite float of magnitude below [2 ^ B]. *)
Definition SF_mag (B : Z) (f : spec_float) : Prop :=
  match f with
  | S754_zero _ => True
  | S754_finite _ m e => (Zpos (digits2_pos m) + e <= B)%Z
  | _ => False
  end.

Section Vocabulary.
Context `{Host}.

(** The text [setItem] receives for a result of [JSON.stringify]. *)
Definition stored_text (text : option string) : string :=
  match text with
  | Some s => s
  | None => "undefined"
  end.

(** The items of the storage after [saveToLS key value]. *)
Definition stored_items (key : string) (value : JSValue) (st : Storage)
  : gmap string string :=
  if accessible st then
    match JSON_stringify value with
    | Normal text =>
        let m := <[key := stored_text text]> (items st) in
        if Nat.leb (storage_size m) (quota st) then m else items st
    | Throw _ => items st
    end
  else items st.

(** The value [readFromLS key] returns on a storage. *)
Definition load_value (key : string) (st : Storage) : JSValue :=
  if accessible st then
    match items st !! key with
    | Some r =>
        if truthy_string r then
          match JSON_parse r with
          | Normal v => v
          | Throw _ => JSNull
          end
        else JSNull
    | None => JSNull
    end
  else JSNull.

(** The underlying store takes [text] under [key] without raising. *)
Definition setItem_succeeds (key text : string) (w : World) : Prop :=
  result (get_localStorage ;; Storage_setItem key text) w = Normal tt.

(** The elapsed years [performCalculation] computes in a world. *)
Definition elapsed_years (w : World) : float :=
  ((clock w - Date_parse (dateInput_value (dom w) +:+ "T00:00:00"))
   / (1000 * 60 * 60 * 24 * 365.25))%float.

(** The host's logarithm of the clamped argument has a magnitude of at most
    710, as the natural logarithm of every finite double from 0.01 on
    has. *)
Definition Math_log_bounded_at (dogYears : float) : Prop :=
  (PrimFloat.abs (Math_log (if dogYears <? 0.01 then 0.01 else dogYears))
   <=? 710)%float = true.

(** The theme [applyTheme] settles on. *)
Definition normalized_theme (theme : JSValue) : string :=
  if strict_equal theme (JSString "dark") then "dark" else "light".

(** The DOM after [resultDiv.textContent = t]. *)
Definition set_text (t : string) (d : DOM) : DOM :=
  mkDOM (dateInput_value d) t (themeToggle_checked d)
        (switchText_textContent d) (root_data_theme d).

(** The DOM after [applyTheme] settled on [n]. *)
Definition set_theme (n : string) (d : DOM) : DOM :=
  mkDOM (dateInput_value d) (resultDiv_textContent d)
        (negb (String.eqb n "light"))
        (if String.eqb n "light" then "開燈" else "關燈")
        (Some n).

End Vocabulary.

(** Worlds on which the statements are evaluated. *)

(** 2024-03-01T00:00:00Z. *)
Definition sample_clock : float := 1709251200000%float.

Definition sample_world (input : string) (quota : nat) : World :=
  mkWorld (mkDOM input "" false "" None) (mkStorage ∅ true quota) [] sample_clock.

Definition at_clock (t : float) (w : World) : World :=
  mkWorld (dom w) (localStorage w) (console w) t.

(** A page load: the DOM as the markup leaves it, the storage as it is. *)
Definition reload (w : World) : World :=
  mkWorld (mkDOM "" "" false "" None) (localStorage w) [] (clock w).

Definition corrupt_world : World :=
  mkWorld (mkDOM "" "" false "" None)
          (mkStorage {[ LS_KEYS.BIRTH := "{oops" ]} true 4096)
          [] sample_clock.

Definition restorable_world : World :=
  mkWorld (mkDOM "" "" false "" None)
          (mkStorage {[ LS_KEYS.RESULT := RefHost.quote "出生日期必須早於現在" ]}
                     true 4096)
          [] sample_clock.

(** ** Vocabulary of the handlers and the sessions *)

(** A float that is zero, negative or minus infinity. *)
Definition SF_nonpos (f : spec_float) : Prop :=
  match f with
  | S754_zero _ => True
  | S754_finite true _ _ => True
  | S754_infinity true => True
  | _ => False
  end.

(** A float that is zero or finite. *)
Definition SF_finite (f : spec_float) : Prop :=
  match f with
  | S754_zero _ | S754_finite _ _ _ => True
  | _ => False
  end.

(** A float of the given sign, zero and infinity included. *)
Definition SF_signed (s : bool) (f : spec_float) : Prop :=
  match f with
  | S754_zero s' | S754_infinity s' | S754_finite s' _ _ => s' = s
  | S754_nan => False
  end.


(** The theme indicator agrees with the theme attribute: dark goes with a
    checked toggle and the label of turning the light off, light with an
    unchecked toggle and the label of turning it on. *)
Definition theme_consistent (d : DOM) : Prop :=
  root_data_theme d = Some "dark" /\ themeToggle_checked d = true /\
  switchText_textContent d = "關燈" \/
  root_data_theme d = Some "light" /\ themeToggle_checked d = false /\
  switchText_textContent d = "開燈".

(** The items [m'] keep every item of [m], with the same text outside the
    keys [ks]. *)
Definition keeps_items (ks : list string) (m m' : gmap string string) : Prop :=
  (forall key : string, key ∉ ks -> m' !! key = m !! key) /\
  (forall key : string, is_Some (m !! key) -> is_Some (m' !! key)).

(** A page on which the light theme is applied. *)
Definition light_world (input : string) (quota : nat) : World :=
  mkWorld (mkDOM input "" false "開燈" (Some "light")) (mkStorage ∅ true quota)
          [] sample_clock.

(** The handlers the script registers: the load of the document, the click
    on the button, the change of the date input, the change of the theme
    toggle and a key pressed in the date input. *)
Inductive Handler :=
| OnLoad
| OnClick
| OnDateChange
| OnThemeChange
| OnKeydown (key : string).

Section Handlers.
Context `{Host}.

Definition handle (h : Handler) : JS unit :=
  match h with
  | OnLoad => initFromStorage
  | OnClick => onCalculateClick
  | OnDateChange => onDateChange
  | OnThemeChange => onThemeToggleChange
  | OnKeydown key => onDateKeydown key
  end.

(** The keys a handler may write. *)
Definition written_keys (h : Handler) : list string :=
  match h with
  | OnLoad | OnThemeChange => [LS_KEYS.THEME]
  | OnDateChange => [LS_KEYS.BIRTH]
  | OnClick | OnKeydown _ => [LS_KEYS.RESULT; LS_KEYS.BIRTH]
  end.

(** An item that is missing or holds the JSON text of a string. *)
Definition string_item (m : gmap string string) (key : string) : Prop :=
  m !! key = None \/
  exists s text : string,
    JSON_stringify (JSString s) = Normal (Some text) /\
    m !! key = Some text.

(** The theme [initFromStorage] applies on a storage. *)
Definition restored_theme (st : Storage) : string :=
  normalized_theme
    (if ToBoolean (load_value LS_KEYS.THEME st) then load_value LS_KEYS.THEME st
     else JSString "light").

(** The DOM after [initFromStorage] on a storage. *)
Definition restored_dom (st : Storage) (d : DOM) : DOM :=
  set_theme (restored_theme st)
    (mkDOM
       (if ToBoolean (load_value LS_KEYS.BIRTH st)
        then input_sanitize (ToString (load_value LS_KEYS.BIRTH st))
        else dateInput_value d)
       (if ToBoolean (load_value LS_KEYS.RESULT st)
        then ToString (load_value LS_KEYS.RESULT st)
        else resultDiv_textContent d)
       (themeToggle_checked d) (switchText_textContent d) (root_data_theme d)).

End Handlers.

(** A float above zero, infinity included. *)
Definition SF_pos (f : spec_float) : Prop :=
  match f with
  | S754_finite false _ _ | S754_infinity false => True
  | _ => False
  end.

(** A page whose storage is disabled. *)
Definition disabled_world (input : string) : World :=
  mkWorld (mkDOM input "" false "" None) (mkStorage ∅ false 4096) [] sample_clock.

(** * Properties *)

(** ** Facts on binary64 arithmetic *)

Section FloatFacts.
Local Open Scope Z_scope.

(** The exponent of the binary64 format. *)
Lemma fexp64 (z : Z) : fexp prec emax z = Z.max (z - 53) (-1074).
Proof. reflexivity. Qed.

(** Shifting a mantissa to the right removes digits and keeps it
    non-negative. *)
Lemma shr_1_digits (r : shr_record) :
  0 <= shr_m r ->
  0 <= shr_m (shr_1 r) /\
  Zdigits2 (shr_m (shr_1 r)) = Z.max 0 (Zdigits2 (shr_m r) - 1).
Proof.
  destruct r as [m r s]. simpl. intros Hm.
  destruct m as [|p|p]; [simpl; lia | | lia].
  destruct p; cbn [shr_m Zdigits2 digits2_pos]; rewrite ?Pos2Z.inj_succ; lia.
Qed.

Lemma iter_shr_1_digits (p : positive) : forall r : shr_record,
  0 <= shr_m r ->
  0 <= shr_m (SpecFloat.iter_pos shr_1 p r) /\
  Zdigits2 (shr_m (SpecFloat.iter_pos shr_1 p r)) = Z.max 0 (Zdigits2 (shr_m r) - Zpos p).
Proof.
  induction p as [p IH|p IH|]; intros r Hr; simpl.
  - destruct (shr_1_digits r Hr) as [H1 E1].
    destruct (IH _ H1) as [H2 E2]. destruct (IH _ H2) as [H3 E3].
    split; [exact H3|]. rewrite E3, E2, E1. lia.
  - destruct (IH _ Hr) as [H2 E2]. destruct (IH _ H2) as [H3 E3].
    split; [exact H3|]. rewrite E3, E2. lia.
  - apply shr_1_digits, Hr.
Qed.

Lemma shr_record_of_loc_m (m : Z) (l : location) : shr_m (shr_record_of_loc m l) = m.
Proof. destruct l as [|[]]; reflexivity. Qed.

Lemma shr_fexp_mag (m e : Z) (l : location) (r : shr_record) (e' : Z) :
  0 <= m ->
  shr_fexp prec emax m e l = (r, e') ->
  0 <= shr_m r /\
  e' = Z.max e (fexp prec emax (Zdigits2 m + e)) /\
  Zdigits2 (shr_m r) + e' <= Z.max (Zdigits2 m + e) e'.
Proof.
  intros Hm. unfold shr_fexp, shr.
  pose proof (shr_record_of_loc_m m l) as Em.
  destruct (fexp prec emax (Zdigits2 m + e) - e) as [|n|n] eqn:En;
    intros [= <- <-].
  - rewrite Em. lia.
  - destruct (iter_shr_1_digits n (shr_record_of_loc m l)) as [H1 E1]; [lia|].
    rewrite Em in E1. split; [exact H1|]. rewrite E1. lia.
  - rewrite Em. lia.
Qed.

Lemma digits2_pos_succ (p : positive) :
  Zpos (digits2_pos (Pos.succ p)) <= Zpos (digits2_pos p) + 1.
Proof.
  induction p as [p IH|p IH|].
  - change (Pos.succ p~1) with ((Pos.succ p)~0)%positive.
    cbn [digits2_pos]. rewrite !Pos2Z.inj_succ. lia.
  - change (Pos.succ p~0) with (p~1)%positive.
    cbn [digits2_pos]. rewrite !Pos2Z.inj_succ. lia.
  - change (Z.pos (digits2_pos (Pos.succ 1))) with 2. lia.
Qed.

(** Rounding adds at most one digit. *)
Lemma round_nearest_even_digits (m : Z) (l : location) :
  0 <= m ->
  0 <= round_nearest_even m l /\
  Zdigits2 (round_nearest_even m l) <= Zdigits2 m + 1.
Proof.
  intros Hm.
  assert (Hs : 0 <= m + 1 /\ Zdigits2 (m + 1) <= Zdigits2 m + 1).
  { destruct m as [|p|p]; [simpl; lia| |lia].
    split; [lia|]. rewrite Pos2Z.add_pos_pos, Pos.add_1_r. apply digits2_pos_succ. }
  unfold round_nearest_even. destruct l as [|[]]; try (split; lia); try exact Hs.
  destruct (Z.even m); [split; lia | exact Hs].
Qed.

(** Rounding a mantissa and exponent whose magnitude is in range gives
    zero or a finite float, one binade higher at most. *)
Lemma binary_round_aux_mag (s : bool) (mx ex : Z) (l : location) (B : Z) :
  0 < mx -> Zdigits2 mx + ex <= B -> ex <= 971 -> -1074 <= B <= 1023 ->
  SF_mag (B + 1) (binary_round_aux prec emax s mx ex l).
Proof.
  intros Hmx HB Hex HBr. unfold binary_round_aux.
  assert (Hd : 1 <= Zdigits2 mx) by (destruct mx; simpl; lia).
  destruct (shr_fexp prec emax mx ex l) as [r1 e1] eqn:E1.
  destruct (shr_fexp_mag _ _ _ _ _ (Z.lt_le_incl _ _ Hmx) E1) as (H1 & He1 & Hm1).
  destruct (round_nearest_even_digits (shr_m r1) (loc_of_shr_record r1) H1) as [H1' Hd1'].
  destruct (shr_fexp prec emax (round_nearest_even (shr_m r1) (loc_of_shr_record r1)) e1 loc_Exact)
    as [r2 e2] eqn:E2.
  destruct (shr_fexp_mag _ _ _ _ _ H1' E2) as (H2 & He2 & Hm2).
  rewrite fexp64 in He1, He2.
  destruct (shr_m r2) as [|m|m] eqn:Em; simpl; [exact I| |lia].
  assert (Hle : e2 <= 971) by lia.
  change (emax - prec) with 971.
  apply Z.leb_le in Hle. rewrite Hle. simpl. simpl in Hm2. lia.
Qed.

(** The number of digits against powers of two. *)
Lemma digits2_pos_size (p : positive) : digits2_pos p = Pos.size p.
Proof. induction p; simpl; congruence. Qed.

Lemma digits2_pos_gt (p : positive) : Zpos p < 2 ^ Zpos (digits2_pos p).
Proof.
  rewrite digits2_pos_size. pose proof (Pos.size_gt p) as H.
  apply Pos2Z.pos_lt_pos in H. rewrite Pos2Z.inj_pow in H. exact H.
Qed.

Lemma digits2_pos_le (p : positive) (k : Z) :
  0 <= k -> Zpos p < 2 ^ k -> Zpos (digits2_pos p) <= k.
Proof.
  intros Hk Hp. rewrite digits2_pos_size.
  pose proof (Pos.size_le p) as H.
  apply Pos2Z.pos_le_pos in H. rewrite Pos2Z.inj_pow in H.
  change (Zpos p~0) with (2 * Zpos p) in H.
  assert (Hlt : 2 ^ Zpos (Pos.size p) < 2 ^ (k + 1)).
  { rewrite Z.pow_add_r by lia. change (2 ^ 1) with 2. lia. }
  apply Z.pow_lt_mono_r_iff in Hlt; lia.
Qed.

Lemma digits2_pos_mul (a b : positive) :
  Zpos (digits2_pos (a * b)) <= Zpos (digits2_pos a) + Zpos (digits2_pos b).
Proof.
  apply digits2_pos_le; [lia|].
  rewrite Z.pow_add_r by lia. rewrite Pos2Z.inj_mul.
  pose proof (digits2_pos_gt a). pose proof (digits2_pos_gt b). nia.
Qed.

Lemma digits2_pos_add_le (m a b : positive) (M : Z) :
  Zpos m <= Zpos a + Zpos b ->
  Zpos (digits2_pos a) <= M -> Zpos (digits2_pos b) <= M ->
  Zpos (digits2_pos m) <= M + 1.
Proof.
  intros Hm Ha Hb. apply digits2_pos_le; [lia|].
  pose proof (digits2_pos_gt a) as Ga. pose proof (digits2_pos_gt b) as Gb.
  assert (2 ^ Zpos (digits2_pos a) <= 2 ^ M) by (apply Z.pow_le_mono_r; lia).
  assert (2 ^ Zpos (digits2_pos b) <= 2 ^ M) by (apply Z.pow_le_mono_r; lia).
  rewrite Z.pow_add_r by lia. change (2 ^ 1) with 2. lia.
Qed.

Lemma digits2_pos_iter_xO (d m : positive) :
  Zpos (digits2_pos (Pos.iter xO m d)) = Zpos (digits2_pos m) + Zpos d.
Proof.
  induction d as [|d IH] using Pos.peano_ind.
  - cbn [Pos.iter digits2_pos]. rewrite Pos2Z.inj_succ. lia.
  - rewrite Pos.iter_succ. cbn [digits2_pos]. rewrite !Pos2Z.inj_succ, IH. lia.
Qed.

Lemma shl_align_mag (mx : positive) (ex ex' : Z) :
  Zpos (digits2_pos (fst (shl_align mx ex ex'))) + snd (shl_align mx ex ex')
  = Zpos (digits2_pos mx) + ex /\
  snd (shl_align mx ex ex') = Z.min ex ex'.
Proof.
  unfold shl_align. destruct (ex' - ex) as [|d|d] eqn:E; cbn [fst snd]; try lia.
  rewrite digits2_pos_iter_xO. lia.
Qed.

Lemma binary_round_mag (s : bool) (m : positive) (e B : Z) :
  Zpos (digits2_pos m) + e <= B -> -1074 <= B <= 1023 ->
  SF_mag (B + 1) (binary_round prec emax s m e).
Proof.
  intros HB HBr. unfold binary_round.
  pose proof (shl_align_mag m e (fexp prec emax (Zpos (digits2_pos m) + e))) as [Hd He].
  destruct (shl_align m e (fexp prec emax (Zpos (digits2_pos m) + e))) as [mz ez].
  cbn [fst snd] in Hd, He. rewrite fexp64 in He.
  apply binary_round_aux_mag; cbn [Zdigits2]; lia.
Qed.

(** Products and sums of floats of bounded magnitude do not overflow. *)
Lemma SFmul_mag (x y : spec_float) (A B : Z) :
  SF_mag A x -> SF_mag B y -> -1074 <= A + B <= 973 ->
  SF_mag (A + B + 1) (SFmul prec emax x y).
Proof.
  destruct x as [sx|sx| |sx mx ex], y as [sy|sy| |sy my ey];
    cbn [SF_mag SFmul]; try tauto.
  intros HA HB Hr.
  pose proof (digits2_pos_mul mx my).
  assert (1 <= Zpos (digits2_pos mx)) by lia.
  assert (1 <= Zpos (digits2_pos my)) by lia.
  apply binary_round_aux_mag; cbn [Zdigits2]; lia.
Qed.

Lemma SFadd_mag (x y : spec_float) (A : Z) :
  SF_mag A x -> SF_mag A y -> -1074 <= A <= 1021 ->
  SF_mag (A + 2) (SFadd prec emax x y).
Proof.
  destruct x as [sx|sx| |sx mx ex], y as [sy|sy| |sy my ey];
    cbn [SF_mag SFadd]; try tauto.
  - intros _ _ _. destruct sx, sy; exact I.
  - intros _ H _. lia.
  - intros H _ _. lia.
  - intros HA HB Hr.
    pose proof (shl_align_mag mx ex (Z.min ex ey)) as [Hx Hx'].
    pose proof (shl_align_mag my ey (Z.min ex ey)) as [Hy Hy'].
    destruct (shl_align mx ex (Z.min ex ey)) as [ax ex1].
    destruct (shl_align my ey (Z.min ex ey)) as [ay ey1].
    cbn [fst snd SF_mag] in *.
    set (z := cond_Zopp sx (Zpos ax) + cond_Zopp sy (Zpos ay)).
    assert (Hz : Z.abs z <= Zpos ax + Zpos ay).
    { unfold z. destruct sx, sy; cbn [cond_Zopp]; lia. }
    unfold binary_normalize.
    destruct z as [|m|m] eqn:Ez; [exact I| |].
    + replace (A + 2) with ((A + 1) + 1) by lia. apply binary_round_mag; [|lia].
      assert (Zpos (digits2_pos m) <= (A - Z.min ex ey) + 1); [|lia].
      apply (digits2_pos_add_le m ax ay); cbn [Z.abs] in Hz; lia.
    + replace (A + 2) with ((A + 1) + 1) by lia. apply binary_round_mag; [|lia].
      assert (Zpos (digits2_pos m) <= (A - Z.min ex ey) + 1); [|lia].
      apply (digits2_pos_add_le m ax ay); cbn [Z.abs] in Hz; lia.
Qed.

Lemma SFcompare_refl_finite (s : bool) (m : positive) (e : Z) :
  SFcompare (S754_finite s m e) (S754_finite s m e) = Some Eq.
Proof.
  simpl. rewrite Z.compare_refl.
  assert (Pos.compare_cont Eq m m = Eq) by (apply Pos.compare_cont_refl).
  destruct s; rewrite H; reflexivity.
Qed.

Lemma SF_mag_finite (B : Z) (x : float) :
  SF_mag B (Prim2SF x) -> is_nan x = false /\ is_finite x = true.
Proof.
  intros Hx. unfold is_finite, is_nan, is_infinity.
  rewrite !FloatAxioms.eqb_spec, abs_spec. unfold SFeqb.
  change (Prim2SF infinity) with (S754_infinity false).
  destruct (Prim2SF x) as [s|s| |s m e]; cbn [SF_mag] in Hx; try tauto.
  rewrite SFcompare_refl_finite. split; reflexivity.
Qed.

(** The expression [16 * l + 31] of the script on a bounded [l]. *)
Lemma abs_leb_710_mag (l : float) :
  (PrimFloat.abs l <=? 710)%float = true -> SF_mag 10 (Prim2SF l).
Proof.
  rewrite leb_spec, abs_spec. unfold SFleb.
  change (Prim2SF 710) with (S754_finite false 6245226045767680 (-43)).
  generalize 6245226045767680%positive. intros m0.
  pose proof (Prim2SF_valid l) as Hv.
  destruct (Prim2SF l) as [s|s| |s m e]; cbn [SFabs SFcompare SF_mag];
    try discriminate; [tauto|].
  cbn [valid_binary bounded] in Hv. apply andb_prop in Hv. destruct Hv as [Hc _].
  unfold canonical_mantissa in Hc. apply Z.eqb_eq in Hc. rewrite fexp64 in Hc.
  destruct (e ?= -43) eqn:E; try discriminate.
  - apply Z.compare_eq in E. lia.
  - rewrite Z.compare_lt_iff in E. lia.
Qed.

Lemma affine_finite (l : float) :
  (PrimFloat.abs l <=? 710)%float = true ->
  is_nan (16 * l + 31)%float = false /\ is_finite (16 * l + 31)%float = true.
Proof.
  intros Hl. apply (SF_mag_finite 19).
  rewrite add_spec, mul_spec.
  change 19 with (17 + 2). apply SFadd_mag; [| |lia].
  - change 17 with (6 + 10 + 1). apply SFmul_mag; [| |lia].
    + change (Prim2SF 16) with (S754_finite false 4503599627370496 (-48)). simpl. lia.
    + apply abs_leb_710_mag, Hl.
  - change (Prim2SF 31) with (S754_finite false 8725724278030336 (-48)). simpl. lia.
Qed.

(** Comparisons: the order is antisymmetric, and total away from NaN. *)
Lemma SFcompare_antisym (a b : spec_float) :
  SFcompare b a = option_map CompOpp (SFcompare a b).
Proof.
  destruct a as [sa|sa| |sa ma ea], b as [sb|sb| |sb mb eb]; simpl; try reflexivity;
    try (destruct sa; reflexivity); try (destruct sb; reflexivity);
    try (destruct sa, sb; reflexivity).
  destruct sa, sb; simpl; try reflexivity.
  - rewrite (Z.compare_antisym ea eb). destruct (ea ?= eb)%Z eqn:E; simpl; try reflexivity.
    f_equal. rewrite Pos.compare_cont_antisym. simpl. rewrite CompOpp_involutive. reflexivity.
  - rewrite (Z.compare_antisym ea eb). destruct (ea ?= eb)%Z eqn:E; simpl; try reflexivity.
    f_equal. rewrite Pos.compare_cont_antisym. reflexivity.
Qed.

Lemma ltb_leb_false (x y : float) : (x <? y)%float = true -> (y <=? x)%float = false.
Proof.
  rewrite ltb_spec, leb_spec. unfold SFltb, SFleb.
  rewrite (SFcompare_antisym (Prim2SF x) (Prim2SF y)).
  destruct (SFcompare (Prim2SF x) (Prim2SF y)) as [[]|]; simpl; congruence.
Qed.

Lemma ltb_ltb_false (x y : float) : (x <? y)%float = true -> (y <? x)%float = false.
Proof.
  rewrite !ltb_spec. unfold SFltb.
  rewrite (SFcompare_antisym (Prim2SF x) (Prim2SF y)).
  destruct (SFcompare (Prim2SF x) (Prim2SF y)) as [[]|]; simpl; congruence.
Qed.

Lemma gt_lower_bound_positive (y : float) :
  (0.01 <? y)%float = true -> (y <=? 0)%float = false.
Proof.
  rewrite ltb_spec, leb_spec.
  change (Prim2SF 0.01) with (S754_finite false 5764607523034235 (-59)).
  change (Prim2SF 0) with (S754_zero false).
  destruct (Prim2SF y) as [s|s| |s m e]; simpl; try discriminate.
  - destruct s; [discriminate|reflexivity].
  - destruct s; [discriminate|reflexivity].
Qed.

Lemma is_nan_false_SF (x : float) : is_nan x = false -> Prim2SF x <> S754_nan.
Proof.
  unfold is_nan. rewrite FloatAxioms.eqb_spec. unfold SFeqb.
  intros Hn E. rewrite E in Hn. discriminate.
Qed.

Lemma SFcompare_some (a b : spec_float) :
  a <> S754_nan -> b <> S754_nan -> exists c, SFcompare a b = Some c.
Proof.
  destruct a, b; simpl; try congruence; eauto.
Qed.

Lemma leb_false_ltb (x c : float) :
  is_nan x = false -> is_nan c = false -> (x <=? c)%float = false -> (c <? x)%float = true.
Proof.
  intros Hx Hc. rewrite ltb_spec, leb_spec. unfold SFltb, SFleb.
  rewrite (SFcompare_antisym (Prim2SF x) (Prim2SF c)).
  destruct (SFcompare_some _ _ (is_nan_false_SF _ Hx) (is_nan_false_SF _ Hc)) as [o ->].
  destruct o; simpl; congruence.
Qed.

Lemma ltb_false_leb (x c : float) :
  is_nan x = false -> is_nan c = false -> (x <? c)%float = false -> (c <=? x)%float = true.
Proof.
  intros Hx Hc. rewrite ltb_spec, leb_spec. unfold SFltb, SFleb.
  rewrite (SFcompare_antisym (Prim2SF x) (Prim2SF c)).
  destruct (SFcompare_some _ _ (is_nan_false_SF _ Hx) (is_nan_false_SF _ Hc)) as [o ->].
  destruct o; simpl; congruence.
Qed.

Lemma is_finite_not_nan (x : float) : is_finite x = true -> is_nan x = false.
Proof.
  unfold is_finite. destruct (is_nan x); [discriminate|reflexivity].
Qed.

(** On a finite number the guard [years <= 0] fails exactly when the number
    is positive. *)
Lemma guard_passed_iff (years : float) :
  is_finite years = true ->
  (years <=? 0)%float = false <-> (0 <? years)%float = true.
Proof.
  intros Hf. split.
  - apply leb_false_ltb; [apply is_finite_not_nan, Hf|reflexivity].
  - apply ltb_leb_false.
Qed.

End FloatFacts.

(** ** Sequencing *)

Lemma bind_normal {A B} (m : JS A) (k : A -> JS B) (w w' : World) (a : A) :
  m w = (Normal a, w') -> (x <- m ;; k x) w = k a w'.
Proof. intros E. unfold bind. rewrite E. reflexivity. Qed.

Lemma result_bind_normal {A B} (m : JS A) (k : A -> JS B) (w w' : World) (a : A) :
  m w = (Normal a, w') -> result (x <- m ;; k x) w = result (k a) w'.
Proof. intros E. unfold result. rewrite (bind_normal _ _ _ _ _ E). reflexivity. Qed.

(** One step of a sequence whose first statement is a host operation. *)
Ltac js_step := erewrite bind_normal; [|reflexivity].

(** ** What the operations of the script compute *)

Section StoreFacts.
Context `{Host}.

Lemma with_items_id (w : World) : with_items (items (localStorage w)) w = w.
Proof. destruct w as [d [m a q] c t]. reflexivity. Qed.

Lemma saveToLS_spec (key : string) (value : JSValue) (w : World) :
  exists c, saveToLS key value w
            = (Normal tt,
               with_console c (with_items (stored_items key value (localStorage w)) w)).
Proof.
  unfold saveToLS, try_catch, bind, get_localStorage, lift, Storage_setItem,
    console_warn, stored_items.
  destruct (accessible (localStorage w)) eqn:Ea.
  - destruct (JSON_stringify value) as [text|e] eqn:Ej.
    + fold (stored_text text).
      destruct (Nat.leb _ _) eqn:Eq.
      * exists (console w). destruct w as [d [m a q] c t]. reflexivity.
      * eexists. rewrite with_items_id. reflexivity.
    + eexists. rewrite with_items_id. reflexivity.
  - eexists. rewrite with_items_id. reflexivity.
Qed.

Lemma readFromLS_spec (key : string) (w : World) :
  exists c, readFromLS key w
            = (Normal (load_value key (localStorage w)), with_console c w).
Proof.
  unfold readFromLS, try_catch, bind, get_localStorage, lift, Storage_getItem,
    console_warn, load_value, ret.
  destruct (accessible (localStorage w)) eqn:Ea.
  - destruct (items (localStorage w) !! key) as [r|] eqn:Er.
    + destruct (truthy_string r).
      * destruct (JSON_parse r) as [v|e]; [exists (console w)|eexists];
          destruct w as [d [m a q] c t]; reflexivity.
      * exists (console w). destruct w as [d [m a q] c t]. reflexivity.
    + exists (console w). destruct w as [d [m a q] c t]. reflexivity.
  - eexists. reflexivity.
Qed.

Lemma setItem_succeeds_iff (key text : string) (w : World) :
  setItem_succeeds key text w <->
  accessible (localStorage w) = true /\
  (storage_size (<[key := text]> (items (localStorage w))) <= quota (localStorage w))%nat.
Proof.
  unfold setItem_succeeds, result, bind, get_localStorage, Storage_setItem.
  destruct (accessible (localStorage w)); simpl.
  - destruct (Nat.leb _ _) eqn:E; simpl.
    + apply Nat.leb_le in E. tauto.
    + apply Nat.leb_gt in E. split; [discriminate|]. intros [_ ?]. lia.
  - split; [discriminate|]. intros [? _]. discriminate.
Qed.

Lemma stored_items_success (key : string) (value : JSValue) (text : option string) (w : World) :
  JSON_stringify value = Normal text ->
  setItem_succeeds key (stored_text text) w ->
  stored_items key value (localStorage w)
  = <[key := stored_text text]> (items (localStorage w)).
Proof.
  intros Ej Hs. apply setItem_succeeds_iff in Hs as [Ha Hq].
  unfold stored_items. rewrite Ha, Ej. simpl.
  apply Nat.leb_le in Hq. rewrite Hq. reflexivity.
Qed.

Lemma stored_items_failure (key : string) (value : JSValue) (text : option string) (w : World) :
  JSON_stringify value = Normal text ->
  ~ setItem_succeeds key (stored_text text) w ->
  stored_items key value (localStorage w) = items (localStorage w).
Proof.
  intros Ej Hs. rewrite setItem_succeeds_iff in Hs.
  unfold stored_items. rewrite Ej.
  destruct (accessible (localStorage w)); [|reflexivity]. simpl.
  destruct (Nat.leb _ _) eqn:E; [|reflexivity].
  apply Nat.leb_le in E. tauto.
Qed.

Lemma stored_items_other (key key' : string) (value : JSValue) (st : Storage) :
  key <> key' -> stored_items key value st !! key' = items st !! key'.
Proof.
  intros Hne. unfold stored_items.
  destruct (accessible st); [|reflexivity].
  destruct (JSON_stringify value); [|reflexivity]. simpl.
  destruct (Nat.leb _ _); [|reflexivity].
  apply lookup_insert_ne, Hne.
Qed.

Lemma displayResult_spec (text : string) (w : World) :
  exists c,
    displayResult text w
    = (Normal tt,
       with_console c
         (with_items (stored_items LS_KEYS.RESULT (JSString text) (localStorage w))
            (with_dom (set_text text) w))).
Proof.
  unfold displayResult.
  destruct (saveToLS_spec LS_KEYS.RESULT (JSString text) (with_dom (set_text text) w))
    as [c Hc].
  exists c. js_step. exact Hc.
Qed.

(** Every branch of [performCalculation] is a [displayResult] of its
    message: one of the three error messages or the two-line result. *)
Lemma performCalculation_displayResult (w : World) :
  exists text,
    performCalculation w = displayResult text w /\
    (text = "請輸入有效的出生年月日" \/
     text = "出生日期必須早於現在" \/
     text = "計算失敗：輸入值可能不合理" \/
     exists dog human : string,
       text = "狗狗現在大約 " +:+ dog +:+ " 歲的狗年齡，" +:+ newline
              +:+ "換算成人類大約是 " +:+ human +:+ " 歲。").
Proof.
  unfold performCalculation.
  js_step.
  destruct (negb (truthy_string _)); [eexists; split; [reflexivity|auto]|].
  destruct (is_nan (Date_parse _)); [eexists; split; [reflexivity|auto]|].
  js_step.
  destruct (_ <=? _)%float; [eexists; split; [reflexivity|auto]|].
  destruct (dogAgeToHuman _) as [h|]; [|eexists; split; [reflexivity|auto]].
  destruct (is_nan h || negb (is_finite h));
    eexists; (split; [reflexivity|]); [auto|].
  right. right. right. eexists _, _. reflexivity.
Qed.

End StoreFacts.

(** One step of a sequence whose first statement is [saveToLS]. *)
Ltac js_save c Hc :=
  match goal with
  | |- context [bind (saveToLS ?k ?v) _ ?w'] =>
      destruct (saveToLS_spec k v w') as [c Hc];
      erewrite bind_normal; [|exact Hc]
  end.

(** ** The age conversion *)

Section AgeConverter.
Context `{Host}.
Local Open Scope float_scope.

(** C1: above 0.01 the conversion is [16 * Math.log(elapsedYears) + 31]. *)
Theorem dogAgeToHuman_formula (elapsedYears : float) :
  (0.01 <? elapsedYears) = true ->
  dogAgeToHuman elapsedYears = Some (16 * Math_log elapsedYears + 31).
Proof.
  intros Hgt. unfold dogAgeToHuman.
  rewrite (gt_lower_bound_positive _ Hgt), (ltb_ltb_false _ _ Hgt). reflexivity.
Qed.

(** C2: at or below zero the conversion returns the not-computable signal
    ([null] in the script) and never a number. *)
Theorem dogAgeToHuman_not_computable (elapsedYears : float) :
  (elapsedYears <=? 0) = true ->
  dogAgeToHuman elapsedYears = None /\
  forall h : float, dogAgeToHuman elapsedYears <> Some h.
Proof.
  intros Hle. unfold dogAgeToHuman. rewrite Hle. split; [reflexivity|discriminate].
Qed.

(** C3: strictly between 0 and 0.01 the argument is clamped to 0.01 before
    the formula is applied: the conversion is [16 * Math.log(0.01) + 31],
    which is the conversion of 0.01. *)
Theorem dogAgeToHuman_clamped (elapsedYears : float) :
  (0 <? elapsedYears) = true -> (elapsedYears <? 0.01) = true ->
  dogAgeToHuman elapsedYears = Some (16 * Math_log 0.01 + 31) /\
  dogAgeToHuman 0.01 = Some (16 * Math_log 0.01 + 31) /\
  dogAgeToHuman elapsedYears = dogAgeToHuman 0.01.
Proof.
  intros Hpos Hlt.
  assert (Hy : dogAgeToHuman elapsedYears = Some (16 * Math_log 0.01 + 31)).
  { unfold dogAgeToHuman. rewrite (ltb_leb_false _ _ Hpos), Hlt. reflexivity. }
  assert (Hc : dogAgeToHuman 0.01 = Some (16 * Math_log 0.01 + 31)).
  { unfold dogAgeToHuman.
    change (0.01 <=? 0) with false. change (0.01 <? 0.01) with false.
    reflexivity. }
  split; [exact Hy|]. split; [exact Hc|]. rewrite Hy, Hc. reflexivity.
Qed.

Lemma clamped_argument (y : float) :
  is_finite y = true ->
  is_finite (if y <? 0.01 then 0.01 else y) = true /\
  (0.01 <=? (if y <? 0.01 then 0.01 else y)) = true.
Proof.
  intros Hf. destruct (y <? 0.01) eqn:E.
  - split; reflexivity.
  - split; [exact Hf|].
    apply ltb_false_leb; [apply is_finite_not_nan, Hf|reflexivity|exact E].
Qed.

Lemma dogAgeToHuman_finite (y : float) :
  (0 <? y) = true -> Math_log_bounded_at y ->
  exists h, dogAgeToHuman y = Some h /\ is_nan h = false /\ is_finite h = true.
Proof.
  intros Hpos Hlog. unfold dogAgeToHuman. rewrite (ltb_leb_false _ _ Hpos).
  eexists. split; [reflexivity|]. apply affine_finite, Hlog.
Qed.

End AgeConverter.

(** ** The persistent store *)

Section PersistentStore.
Context `{Host}.

(** C7: [saveToLS] and [readFromLS] never raise: a write the store refuses
    is caught and only logged, and a missing key or a malformed item reads
    as [null]. *)
Theorem store_never_raises :
  (forall (key : string) (value : JSValue) (w : World),
      result (saveToLS key value) w = Normal tt) /\
  (forall (key : string) (value : JSValue) (text : option string) (w : World),
      JSON_stringify value = Normal text ->
      ~ setItem_succeeds key (stored_text text) w ->
      exists e : JSError,
        saveToLS key value w
        = (Normal tt, with_console (console w ++ [("LocalStorage 寫入失敗", e)]) w)) /\
  (forall (key : string) (w : World),
      exists v, result (readFromLS key) w = Normal v) /\
  (forall (key : string) (w : World),
      items (localStorage w) !! key = None ->
      result (readFromLS key) w = Normal JSNull) /\
  (forall (key raw : string) (e : JSError) (w : World),
      items (localStorage w) !! key = Some raw ->
      JSON_parse raw = Throw e ->
      result (readFromLS key) w = Normal JSNull).
Proof.
  split; [|split; [|split; [|split]]].
  - intros key value w. destruct (saveToLS_spec key value w) as [c Hc].
    unfold result. rewrite Hc. reflexivity.
  - intros key value text w Ej Hs. rewrite setItem_succeeds_iff in Hs.
    unfold saveToLS, try_catch, bind, get_localStorage, lift, Storage_setItem,
      console_warn.
    rewrite Ej. fold (stored_text text).
    destruct (accessible (localStorage w)); [|eexists; reflexivity].
    destruct (Nat.leb _ _) eqn:E; [|eexists; reflexivity].
    apply Nat.leb_le in E. tauto.
  - intros key w. destruct (readFromLS_spec key w) as [c Hc].
    eexists. unfold result. rewrite Hc. reflexivity.
  - intros key w Hnone. destruct (readFromLS_spec key w) as [c Hc].
    unfold result. rewrite Hc. simpl. unfold load_value. rewrite Hnone.
    destruct (accessible (localStorage w)); reflexivity.
  - intros key raw e w Hraw Hparse. destruct (readFromLS_spec key w) as [c Hc].
    unfold result. rewrite Hc. simpl. unfold load_value. rewrite Hraw, Hparse.
    destruct (accessible (localStorage w)), (truthy_string raw); reflexivity.
Qed.

End PersistentStore.

Section Persistence.
Context `{HL : HostLaws}.

Lemma load_after_store (key text : string) (value v : JSValue) (w : World)
    (c : list (string * JSError)) (f : DOM -> DOM) :
  JSON_stringify value = Normal (Some text) ->
  JSON_parse text = Normal v ->
  setItem_succeeds key text w ->
  load_value key
    (localStorage
       (with_console c
          (with_items (stored_items key value (localStorage w)) (with_dom f w))))
  = v.
Proof.
  intros Ej Ep Hs.
  pose proof (stored_items_success key value (Some text) w Ej Hs) as Ei.
  apply setItem_succeeds_iff in Hs as [Ha _].
  unfold load_value. simpl. rewrite Ha, Ei. simpl. rewrite lookup_insert_eq.
  destruct text as [|ch text'].
  - destruct JSON_parse_empty as [e He]. congruence.
  - simpl. rewrite Ep. reflexivity.
Qed.

Lemma load_after_store_string (key text s : string) (w : World)
    (c : list (string * JSError)) (f : DOM -> DOM) :
  JSON_stringify (JSString s) = Normal (Some text) ->
  setItem_succeeds key text w ->
  load_value key
    (localStorage
       (with_console c
          (with_items (stored_items key (JSString s) (localStorage w)) (with_dom f w))))
  = JSString s.
Proof.
  intros Ej Hs. destruct (JSON_string_roundtrip s) as (text' & Ej' & Ep).
  assert (text' = text) by congruence. subst text'.
  exact (load_after_store key text (JSString s) (JSString s) w c f Ej Ep Hs).
Qed.

(** C8: a value that survives [JSON.stringify] and [JSON.parse] is read back
    by [readFromLS] after [saveToLS], when the store takes the write. *)
Theorem store_roundtrip (k : string) (v : JSValue) (text : string) (w : World) :
  JSON_stringify v = Normal (Some text) ->
  JSON_parse text = Normal v ->
  setItem_succeeds k text w ->
  result (saveToLS k v ;; readFromLS k) w = Normal v.
Proof.
  intros Ej Ep Hs.
  destruct (saveToLS_spec k v w) as [c Hc].
  erewrite result_bind_normal; [|exact Hc].
  destruct (readFromLS_spec k
    (with_console c (with_items (stored_items k v (localStorage w)) w))) as [c' Hc'].
  unfold result. rewrite Hc'. simpl. f_equal.
  apply (load_after_store k text v v w c (fun d => d) Ej Ep) in Hs.
  destruct w as [d st co cl]. exact Hs.
Qed.

(** ** The calculation *)

(** C4, amended: every branch of [performCalculation] ends in
    [displayResult] of the message it shows and never raises; when the
    store takes the write the result text read back is the text shown, and
    when it does not the stored items are left as they were. *)
Theorem performCalculation_persists (w : World) :
  (exists text : string,
      performCalculation w = displayResult text w /\
      resultDiv_textContent (dom (run performCalculation w)) = text) /\
  result performCalculation w = Normal tt /\
  forall text : string,
    JSON_stringify
      (JSString (resultDiv_textContent (dom (run performCalculation w))))
    = Normal (Some text) ->
    (setItem_succeeds LS_KEYS.RESULT text w ->
     result (readFromLS LS_KEYS.RESULT) (run performCalculation w)
     = Normal (JSString (resultDiv_textContent (dom (run performCalculation w))))) /\
    (~ setItem_succeeds LS_KEYS.RESULT text w ->
     items (localStorage (run performCalculation w)) = items (localStorage w)).
Proof.
  destruct (performCalculation_displayResult w) as (shown & Hshown & _).
  destruct (displayResult_spec shown w) as [c Hc].
  split.
  { exists shown. split; [exact Hshown|]. unfold run. rewrite Hshown, Hc. reflexivity. }
  unfold result, run. rewrite Hshown, Hc. simpl.
  split; [reflexivity|]. intros text Ej. split; intros Hs.
  - match goal with |- context [readFromLS ?k ?w'] =>
      destruct (readFromLS_spec k w') as [c' Hc'] end.
    rewrite Hc'. simpl. f_equal.
    exact (load_after_store_string LS_KEYS.RESULT text shown w c (set_text shown) Ej Hs).
  - exact (stored_items_failure LS_KEYS.RESULT (JSString shown) (Some text) w Ej Hs).
Qed.

End Persistence.

Section Calculation.
Context `{Host}.

Lemma truthy_string_nonempty (s : string) : truthy_string s = true <-> s <> "".
Proof. destruct s; simpl; split; congruence. Qed.

Lemma displayResult_shown (text : string) (w : World) :
  resultDiv_textContent (dom (run (displayResult text) w)) = text.
Proof.
  destruct (displayResult_spec text w) as [c Hc]. unfold run. rewrite Hc. reflexivity.
Qed.

Lemma performCalculation_empty (w : World) :
  dateInput_value (dom w) = "" ->
  performCalculation w = displayResult "請輸入有效的出生年月日" w.
Proof.
  intros Hv. unfold performCalculation.
  js_step. rewrite Hv. reflexivity.
Qed.

Lemma performCalculation_unparsable (w : World) :
  dateInput_value (dom w) <> "" ->
  is_nan (Date_parse (dateInput_value (dom w) +:+ "T00:00:00")) = true ->
  performCalculation w = displayResult "請輸入有效的出生年月日" w.
Proof.
  intros Hv Hnan. unfold performCalculation.
  js_step.
  apply truthy_string_nonempty in Hv. rewrite Hv, Hnan. reflexivity.
Qed.

(** C5: an empty date input and a non-empty one that does not parse as a
    date show the same message. *)
Theorem invalid_date_message (w1 w2 : World) :
  dateInput_value (dom w1) = "" ->
  dateInput_value (dom w2) <> "" ->
  is_nan (Date_parse (dateInput_value (dom w2) +:+ "T00:00:00")) = true ->
  resultDiv_textContent (dom (run performCalculation w1)) = "請輸入有效的出生年月日" /\
  resultDiv_textContent (dom (run performCalculation w2))
  = resultDiv_textContent (dom (run performCalculation w1)).
Proof.
  intros H1 H2 Hnan. unfold run.
  rewrite (performCalculation_empty w1 H1).
  rewrite (performCalculation_unparsable w2 H2 Hnan).
  fold (run (displayResult "請輸入有效的出生年月日") w1).
  fold (run (displayResult "請輸入有效的出生年月日") w2).
  rewrite !displayResult_shown. split; reflexivity.
Qed.

Lemma performCalculation_success (w : World) (h : float) :
  truthy_string (dateInput_value (dom w)) = true ->
  is_nan (Date_parse (dateInput_value (dom w) +:+ "T00:00:00")) = false ->
  (elapsed_years w <=? 0)%float = false ->
  dogAgeToHuman (elapsed_years w) = Some h ->
  is_nan h = false -> is_finite h = true ->
  performCalculation w
  = displayResult
      ("狗狗現在大約 "
       +:+ Number_toString (String_toNumber (Number_toFixed (elapsed_years w) 2))
       +:+ " 歲的狗年齡，" +:+ newline +:+ "換算成人類大約是 "
       +:+ Number_toString (String_toNumber (Number_toFixed h 1)) +:+ " 歲。") w.
Proof.
  intros Hv Hnan Hguard Hage Hn Hf. unfold performCalculation.
  js_step. rewrite Hv, Hnan. cbn [negb].
  js_step.
  fold (elapsed_years w). rewrite Hguard, Hage, Hn, Hf. reflexivity.
Qed.

(** C10: for a finite, positive number of years whose logarithm the host
    computes within the range of the natural logarithm, the argument of
    [Math.log] is a finite double from 0.01 on, [dogAgeToHuman] returns a
    finite number, and [performCalculation] does not show the
    calculation-failed message. *)
Theorem failure_branch_unreachable (elapsedYears : float) :
  is_finite elapsedYears = true ->
  (0 <? elapsedYears)%float = true ->
  Math_log_bounded_at elapsedYears ->
  (is_finite (if elapsedYears <? 0.01 then 0.01 else elapsedYears)%float = true /\
   (0.01 <=? (if elapsedYears <? 0.01 then 0.01 else elapsedYears))%float = true) /\
  (exists h : float,
      dogAgeToHuman elapsedYears = Some h /\
      is_nan h = false /\ is_finite h = true) /\
  (forall w : World,
      dateInput_value (dom w) <> "" ->
      is_nan (Date_parse (dateInput_value (dom w) +:+ "T00:00:00")) = false ->
      elapsed_years w = elapsedYears ->
      resultDiv_textContent (dom (run performCalculation w))
      <> "計算失敗：輸入值可能不合理").
Proof.
  intros Hfin Hpos Hlog.
  split; [apply clamped_argument, Hfin|].
  destruct (dogAgeToHuman_finite elapsedYears Hpos Hlog) as (h & Hage & Hn & Hf).
  split; [eauto|].
  intros w Hv Hnan Hy. apply truthy_string_nonempty in Hv.
  unfold run.
  rewrite (performCalculation_success w h Hv Hnan); try assumption.
  - match goal with |- context [displayResult ?t w] =>
      fold (run (displayResult t) w); rewrite (displayResult_shown t w) end.
    simpl. discriminate.
  - rewrite Hy. apply ltb_leb_false, Hpos.
  - rewrite Hy. exact Hage.
Qed.

End Calculation.

(** ** The theme and the restored session *)

Section Theme.
Context `{Host}.

Lemma strict_equal_string (v : JSValue) (s : string) :
  strict_equal v (JSString s) = true <-> v = JSString s.
Proof.
  destruct v; simpl; try (split; congruence).
  rewrite String.eqb_eq. split; congruence.
Qed.

Lemma normalized_theme_cases (theme : JSValue) :
  theme = JSString "dark" /\ normalized_theme theme = "dark" \/
  theme <> JSString "dark" /\ normalized_theme theme = "light".
Proof.
  unfold normalized_theme.
  destruct (strict_equal theme (JSString "dark")) eqn:E.
  - left. apply strict_equal_string in E. auto.
  - right. split; [|reflexivity]. intros ->. discriminate.
Qed.

Lemma applyTheme_spec (theme : JSValue) (w : World) :
  exists c,
    applyTheme theme w
    = (Normal tt,
       with_console c
         (with_items
            (stored_items LS_KEYS.THEME (JSString (normalized_theme theme))
               (localStorage w))
            (with_dom (set_theme (normalized_theme theme)) w))).
Proof.
  unfold applyTheme, normalized_theme.
  destruct (strict_equal theme (JSString "dark")) eqn:E; cbn [negb].
  - apply strict_equal_string in E. subst theme.
    js_step. js_save c Hc. exists c.
    cbn [strict_equal String.eqb Ascii.eqb Bool.eqb].
    js_step. reflexivity.
  - js_step. js_save c Hc. exists c.
    cbn [strict_equal String.eqb Ascii.eqb Bool.eqb].
    js_step. reflexivity.
Qed.

Lemma initFromStorage_spec (w : World) :
  exists c n,
    initFromStorage w
    = (Normal tt,
       with_console c
         (with_items (stored_items LS_KEYS.THEME (JSString n) (localStorage w))
            (with_dom
               (fun d =>
                  set_theme n
                    (mkDOM
                       (if ToBoolean (load_value LS_KEYS.BIRTH (localStorage w))
                        then input_sanitize
                               (ToString (load_value LS_KEYS.BIRTH (localStorage w)))
                        else dateInput_value d)
                       (if ToBoolean (load_value LS_KEYS.RESULT (localStorage w))
                        then ToString (load_value LS_KEYS.RESULT (localStorage w))
                        else resultDiv_textContent d)
                       (themeToggle_checked d) (switchText_textContent d)
                       (root_data_theme d)))
               w))).
Proof.
  unfold initFromStorage.
  destruct (readFromLS_spec LS_KEYS.BIRTH w) as [c1 H1].
  erewrite bind_normal; [|exact H1].
  set (v1 := load_value LS_KEYS.BIRTH (localStorage w)).
  set (w1 := if ToBoolean v1 then run (set_dateInput_value v1) (with_console c1 w)
             else with_console c1 w).
  assert (E1 : (if ToBoolean v1 then set_dateInput_value v1 else ret tt) (with_console c1 w)
               = (Normal tt, w1)).
  { unfold w1. destruct (ToBoolean v1); reflexivity. }
  erewrite bind_normal; [|exact E1].
  destruct (readFromLS_spec LS_KEYS.RESULT w1) as [c2 H2].
  erewrite bind_normal; [|exact H2].
  assert (Es1 : localStorage w1 = localStorage w).
  { unfold w1. destruct (ToBoolean v1); reflexivity. }
  rewrite Es1. set (v2 := load_value LS_KEYS.RESULT (localStorage w)).
  set (w2 := if ToBoolean v2 then run (set_resultDiv_textContent v2) (with_console c2 w1)
             else with_console c2 w1).
  assert (E2 : (if ToBoolean v2 then set_resultDiv_textContent v2 else ret tt)
                 (with_console c2 w1) = (Normal tt, w2)).
  { unfold w2. destruct (ToBoolean v2); reflexivity. }
  erewrite bind_normal; [|exact E2].
  destruct (readFromLS_spec LS_KEYS.THEME w2) as [c3 H3].
  erewrite bind_normal; [|exact H3].
  match goal with |- context [applyTheme ?t ?w'] =>
    destruct (applyTheme_spec t w') as [c4 H4]; rewrite H4; exists c4, (normalized_theme t)
  end.
  assert (Es2 : localStorage w2 = localStorage w).
  { unfold w2. destruct (ToBoolean v2); exact Es1. }
  f_equal. unfold with_console, with_items, with_dom. cbn [dom localStorage console clock].
  rewrite Es2. f_equal.
  - unfold w2, w1, set_theme.
    destruct (ToBoolean v2), (ToBoolean v1); reflexivity.
  - unfold w2, w1. destruct (ToBoolean v2), (ToBoolean v1); reflexivity.
Qed.



End Theme.

Section ThemeLaws.
Context `{HL : HostLaws}.

(** C6, amended: [applyTheme] normalizes every value other than the string
    dark to light, sets the theme attribute to the normalized value, checks
    the toggle exactly for dark and, when the store takes the write, leaves
    the normalized value under the theme key. *)
Theorem applyTheme_normalizes (theme : JSValue) (w : World) :
  exists n : string,
    (theme = JSString "dark" /\ n = "dark" \/
     theme <> JSString "dark" /\ n = "light") /\
    result (applyTheme theme) w = Normal tt /\
    root_data_theme (dom (run (applyTheme theme) w)) = Some n /\
    themeToggle_checked (dom (run (applyTheme theme) w)) = String.eqb n "dark" /\
    forall text : string,
      JSON_stringify (JSString n) = Normal (Some text) ->
      setItem_succeeds LS_KEYS.THEME text w ->
      result (readFromLS LS_KEYS.THEME) (run (applyTheme theme) w)
      = Normal (JSString n).
Proof.
  exists (normalized_theme theme).
  destruct (applyTheme_spec theme w) as [c Hc].
  unfold result, run. rewrite Hc. cbn [fst snd].
  split; [|split; [reflexivity|split; [reflexivity|split]]].
  - destruct (normalized_theme_cases theme) as [[? ->]|[? ->]]; auto.
  - simpl. destruct (normalized_theme_cases theme) as [[_ ->]|[_ ->]]; reflexivity.
  - intros text Ej Hs.
    match goal with |- context [readFromLS ?k ?w'] =>
      destruct (readFromLS_spec k w') as [c' Hc'] end.
    rewrite Hc'. simpl. f_equal.
    exact (load_after_store_string LS_KEYS.THEME text (normalized_theme theme) w c
             (set_theme (normalized_theme theme)) Ej Hs).
Qed.

End ThemeLaws.

(** ** The reference host obeys the laws *)

Lemma parse_chars_escape_char (c : ascii) (tail : string) :
  RefHost.parse_chars (RefHost.escape_char c +:+ tail)
  = match RefHost.parse_chars tail with
    | Some (content, rest) => Some (String c content, rest)
    | None => None
    end.
Proof.
  destruct c as [b0 b1 b2 b3 b4 b5 b6 b7].
  destruct b0, b1, b2, b3, b4, b5, b6, b7; reflexivity.
Qed.

Lemma append_assoc (s1 s2 s3 : string) :
  (s1 +:+ s2) +:+ s3 = s1 +:+ (s2 +:+ s3).
Proof.
  induction s1 as [|c s1 IH]; [reflexivity|].
  change (String c ((s1 +:+ s2) +:+ s3) = String c (s1 +:+ (s2 +:+ s3))).
  f_equal. exact IH.
Qed.

Lemma parse_chars_escape (s rest : string) :
  RefHost.parse_chars (RefHost.escape s +:+ String RefHost.dquote rest)
  = Some (s, rest).
Proof.
  induction s as [|c s IH]; [reflexivity|].
  change (RefHost.escape (String c s))
    with (RefHost.escape_char c +:+ RefHost.escape s).
  rewrite append_assoc.
  rewrite parse_chars_escape_char, IH. reflexivity.
Qed.

Lemma parse_quote (s : string) :
  RefHost.parse (RefHost.quote s) = Normal (JSString s).
Proof.
  unfold RefHost.parse, RefHost.quote.
  cbn [RefHost.skip_whitespace].
  change (RefHost.is_whitespace RefHost.dquote) with false. cbv iota.
  change (Ascii.eqb RefHost.dquote RefHost.dquote) with true. cbv iota.
  rewrite parse_chars_escape. reflexivity.
Qed.

#[export] Instance refHost_laws : HostLaws refHost.
Proof.
  split.
  - intros s. exists (RefHost.quote s). split; [reflexivity|apply parse_quote].
  - exists SyntaxError. reflexivity.
Qed.

(** ** The statements at concrete inputs *)

Lemma dogAgeToHuman_formula_witness :
  (0.01 <? 13.5)%float = true /\
  dogAgeToHuman 13.5 = Some (16 * Math_log 13.5 + 31)%float.
Proof.
  split; [reflexivity|]. apply (dogAgeToHuman_formula 13.5). reflexivity.
Defined.

Lemma dogAgeToHuman_not_computable_witness :
  ((-2.5) <=? 0)%float = true /\
  dogAgeToHuman (-2.5) = None /\
  forall h : float, dogAgeToHuman (-2.5) <> Some h.
Proof.
  split; [reflexivity|]. apply (dogAgeToHuman_not_computable (-2.5)). reflexivity.
Defined.

Lemma dogAgeToHuman_clamped_witness :
  (0 <? 0.001)%float = true /\ (0.001 <? 0.01)%float = true /\
  dogAgeToHuman 0.001 = Some (16 * Math_log 0.01 + 31)%float /\
  dogAgeToHuman 0.01 = Some (16 * Math_log 0.01 + 31)%float /\
  dogAgeToHuman 0.001 = dogAgeToHuman 0.01.
Proof.
  split; [reflexivity|]. split; [reflexivity|].
  apply (dogAgeToHuman_clamped 0.001); reflexivity.
Defined.

Lemma failure_branch_unreachable_witness :
  is_finite (elapsed_years (sample_world "2014-03-02" 4096)) = true /\
  (0 <? elapsed_years (sample_world "2014-03-02" 4096))%float = true /\
  Math_log_bounded_at (elapsed_years (sample_world "2014-03-02" 4096)) /\
  resultDiv_textContent
    (dom (run performCalculation (sample_world "2014-03-02" 4096)))
  <> "計算失敗：輸入值可能不合理".
Proof.
  assert (Hfin : is_finite (elapsed_years (sample_world "2014-03-02" 4096)) = true)
    by (vm_compute; reflexivity).
  assert (Hpos : (0 <? elapsed_years (sample_world "2014-03-02" 4096))%float = true)
    by (vm_compute; reflexivity).
  assert (Hlog : Math_log_bounded_at (elapsed_years (sample_world "2014-03-02" 4096)))
    by (vm_compute; reflexivity).
  repeat split; try assumption.
  apply (failure_branch_unreachable _ Hfin Hpos Hlog).
  - discriminate.
  - vm_compute; reflexivity.
  - reflexivity.
Defined.

Lemma invalid_date_message_witness :
  dateInput_value (dom (sample_world "" 4096)) = "" /\
  dateInput_value (dom (sample_world "not-a-date" 4096)) <> "" /\
  is_nan (Date_parse
            (dateInput_value (dom (sample_world "not-a-date" 4096)) +:+ "T00:00:00"))
  = true /\
  resultDiv_textContent (dom (run performCalculation (sample_world "" 4096)))
  = "請輸入有效的出生年月日" /\
  resultDiv_textContent (dom (run performCalculation (sample_world "not-a-date" 4096)))
  = resultDiv_textContent (dom (run performCalculation (sample_world "" 4096))).
Proof.
  split; [reflexivity|]. split; [discriminate|]. split; [vm_compute; reflexivity|].
  apply (invalid_date_message (sample_world "" 4096) (sample_world "not-a-date" 4096)).
  - reflexivity.
  - discriminate.
  - vm_compute; reflexivity.
Defined.

Lemma store_never_raises_witness :
  result (saveToLS LS_KEYS.BIRTH (JSString "2014-03-02")) (sample_world "" 0)
  = Normal tt /\
  result (readFromLS LS_KEYS.BIRTH) (sample_world "" 4096) = Normal JSNull /\
  result (readFromLS LS_KEYS.BIRTH) corrupt_world = Normal JSNull.
Proof.
  destruct (store_never_raises (H := refHost))
    as (Hsave & _ & _ & Hmissing & Hmalformed).
  split; [apply Hsave|]. split.
  - apply Hmissing. reflexivity.
  - apply (Hmalformed LS_KEYS.BIRTH "{oops" SyntaxError).
    + reflexivity.
    + vm_compute; reflexivity.
Defined.

Lemma store_roundtrip_witness :
  JSON_stringify (JSString "dark") = Normal (Some (RefHost.quote "dark")) /\
  JSON_parse (RefHost.quote "dark") = Normal (JSString "dark") /\
  setItem_succeeds LS_KEYS.THEME (RefHost.quote "dark") (sample_world "" 4096) /\
  result (saveToLS LS_KEYS.THEME (JSString "dark") ;; readFromLS LS_KEYS.THEME)
         (sample_world "" 4096)
  = Normal (JSString "dark").
Proof.
  assert (Hs : setItem_succeeds LS_KEYS.THEME (RefHost.quote "dark")
                 (sample_world "" 4096)) by (vm_compute; reflexivity).
  split; [reflexivity|]. split; [vm_compute; reflexivity|]. split; [exact Hs|].
  apply (store_roundtrip (HL := refHost_laws) LS_KEYS.THEME (JSString "dark")
           (RefHost.quote "dark") (sample_world "" 4096)).
  - reflexivity.
  - vm_compute; reflexivity.
  - exact Hs.
Defined.

Lemma performCalculation_persists_witness :
  setItem_succeeds LS_KEYS.RESULT (RefHost.quote "請輸入有效的出生年月日")
    (sample_world "" 4096) /\
  result (readFromLS LS_KEYS.RESULT) (run performCalculation (sample_world "" 4096))
  = Normal
      (JSString
         (resultDiv_textContent
            (dom (run performCalculation (sample_world "" 4096))))).
Proof.
  assert (Hs : setItem_succeeds LS_KEYS.RESULT
                 (RefHost.quote "請輸入有效的出生年月日") (sample_world "" 4096))
    by (vm_compute; reflexivity).
  split; [exact Hs|].
  destruct (performCalculation_persists (HL := refHost_laws) (sample_world "" 4096))
    as (_ & _ & Hload).
  destruct (Hload (RefHost.quote "請輸入有效的出生年月日")) as [Hstored _].
  - vm_compute; reflexivity.
  - exact (Hstored Hs).
Defined.

(** C4 as stated fails when the store rejects the write: with no quota
    left the message is shown but nothing is stored. *)
Lemma performCalculation_persists_counterexample :
  resultDiv_textContent (dom (run performCalculation (sample_world "" 0)))
  = "請輸入有效的出生年月日" /\
  result (readFromLS LS_KEYS.RESULT) (run performCalculation (sample_world "" 0))
  = Normal JSNull /\
  result (readFromLS LS_KEYS.RESULT) (run performCalculation (sample_world "" 0))
  <> Normal
       (JSString
          (resultDiv_textContent (dom (run performCalculation (sample_world "" 0))))).
Proof.
  split; [vm_compute; reflexivity|]. split; [vm_compute; reflexivity|].
  vm_compute. discriminate.
Qed.

Lemma applyTheme_normalizes_witness :
  setItem_succeeds LS_KEYS.THEME (RefHost.quote "light") (sample_world "" 4096) /\
  root_data_theme (dom (run (applyTheme (JSNumber 3)) (sample_world "" 4096)))
  = Some "light" /\
  themeToggle_checked (dom (run (applyTheme (JSNumber 3)) (sample_world "" 4096)))
  = false /\
  result (readFromLS LS_KEYS.THEME)
         (run (applyTheme (JSNumber 3)) (sample_world "" 4096))
  = Normal (JSString "light").
Proof.
  assert (Hs : setItem_succeeds LS_KEYS.THEME (RefHost.quote "light")
                 (sample_world "" 4096)) by (vm_compute; reflexivity).
  split; [exact Hs|].
  destruct (applyTheme_normalizes (HL := refHost_laws) (JSNumber 3)
              (sample_world "" 4096))
    as (n & [[Hd _]|[_ ->]] & _ & Hattr & Hchecked & Hload); [discriminate Hd|].
  split; [exact Hattr|]. split; [exact Hchecked|].
  apply (Hload (RefHost.quote "light")); [reflexivity|exact Hs].
Defined.

(** C6 as stated fails when the store rejects the write: with no quota
    left the dark theme is applied but not stored. *)
Lemma applyTheme_normalizes_counterexample :
  root_data_theme (dom (run (applyTheme (JSString "dark")) (sample_world "" 0)))
  = Some "dark" /\
  result (readFromLS LS_KEYS.THEME)
         (run (applyTheme (JSString "dark")) (sample_world "" 0))
  = Normal JSNull /\
  result (readFromLS LS_KEYS.THEME)
         (run (applyTheme (JSString "dark")) (sample_world "" 0))
  <> Normal (JSString "dark").
Proof.
  split; [vm_compute; reflexivity|]. split; [vm_compute; reflexivity|].
  vm_compute. discriminate.
Qed.


(** ** The calculator run on the reference host *)

(** No input: the prompt is shown and stored, no birth date is stored. *)
Example run_empty_input :
  let w := run onCalculateClick (sample_world "" 4096) in
  resultDiv_textContent (dom w) = "請輸入有效的出生年月日" /\
  items (localStorage w) !! LS_KEYS.RESULT
  = Some (RefHost.quote "請輸入有效的出生年月日") /\
  items (localStorage w) !! LS_KEYS.BIRTH = None.
Proof. vm_compute. repeat split. Qed.

(** A birth date after the clock. *)
Example run_future_date :
  resultDiv_textContent
    (dom (run onCalculateClick (sample_world "2024-03-02" 4096)))
  = "出生日期必須早於現在".
Proof. vm_compute. reflexivity. Qed.

(** A birth date 365.25 days before the clock: one dog year, 31 human
    years. *)
Example run_one_year :
  resultDiv_textContent
    (dom (run onCalculateClick
            (at_clock 1709186400000 (sample_world "2023-03-01" 4096))))
  = "狗狗現在大約 1 歲的狗年齡，" +:+ newline +:+ "換算成人類大約是 31 歲。".
Proof. vm_compute. reflexivity. Qed.

(** Ten years: [16 * ln 10 + 31] is 67.8 to one decimal place. *)
Example run_ten_years :
  resultDiv_textContent
    (dom (run onCalculateClick (sample_world "2014-03-02" 4096)))
  = "狗狗現在大約 10 歲的狗年齡，" +:+ newline +:+ "換算成人類大約是 67.8 歲。".
Proof. vm_compute. reflexivity. Qed.

(** Checking the toggle stores the dark theme and offers to turn the light
    on again. *)
Example run_toggle_dark :
  let w := run (set_themeToggle_checked true ;; onThemeToggleChange)
               (sample_world "" 4096) in
  result (readFromLS LS_KEYS.THEME) w = Normal (JSString "dark") /\
  root_data_theme (dom w) = Some "dark" /\
  switchText_textContent (dom w) = "關燈".
Proof. vm_compute. repeat split. Qed.

(** A reload after a calculation shows the same text and the birth date. *)
Example run_reload :
  let w := run onCalculateClick (sample_world "2014-03-02" 4096) in
  let w' := run initFromStorage (reload w) in
  resultDiv_textContent (dom w') = resultDiv_textContent (dom w) /\
  dateInput_value (dom w') = "2014-03-02" /\
  root_data_theme (dom w') = Some "light".
Proof. vm_compute. repeat split. Qed.

(** * The handlers and the sessions *)

(** ** Signs in binary64 arithmetic *)

Section SignFacts.
Local Open Scope Z_scope.

Lemma binary_round_aux_signed (s : bool) (mx ex : Z) (l : location) :
  0 <= mx -> SF_signed s (binary_round_aux prec emax s mx ex l).
Proof.
  intros Hmx. unfold binary_round_aux.
  destruct (shr_fexp prec emax mx ex l) as [r1 e1] eqn:E1.
  destruct (shr_fexp_mag _ _ _ _ _ Hmx E1) as (H1 & _ & _).
  destruct (round_nearest_even_digits (shr_m r1) (loc_of_shr_record r1) H1) as [H1' _].
  destruct (shr_fexp prec emax (round_nearest_even (shr_m r1) (loc_of_shr_record r1)) e1 loc_Exact)
    as [r2 e2] eqn:E2.
  destruct (shr_fexp_mag _ _ _ _ _ H1' E2) as (H2 & _ & _).
  destruct (shr_m r2) as [|m|m]; [reflexivity| |lia].
  destruct (e2 <=? emax - prec); reflexivity.
Qed.

Lemma binary_round_signed (s : bool) (m : positive) (e : Z) :
  SF_signed s (binary_round prec emax s m e).
Proof.
  unfold binary_round.
  destruct (shl_align m e (fexp prec emax (Zpos (digits2_pos m) + e))) as [mz ez].
  apply binary_round_aux_signed. lia.
Qed.

Lemma SF_signed_nonpos (f : spec_float) : SF_signed true f -> SF_nonpos f.
Proof. destruct f as [s|s| |s m e]; simpl; try tauto; intros ->; exact I. Qed.

Lemma iter_xO_value (d m : positive) :
  Zpos (Pos.iter xO m d) = Zpos m * 2 ^ Zpos d.
Proof.
  induction d as [|d IH] using Pos.peano_ind.
  - cbn [Pos.iter]. change (2 ^ 1) with 2. lia.
  - rewrite Pos.iter_succ, Pos2Z.inj_succ, Z.pow_succ_r by lia.
    change (Zpos (Pos.iter xO m d)~0) with (2 * Zpos (Pos.iter xO m d)). rewrite IH. lia.
Qed.

(** The mantissa aligned to a smaller exponent keeps the value. *)
Lemma shl_align_value (m : positive) (e ez : Z) :
  ez <= e -> Zpos (fst (shl_align m e ez)) = Zpos m * 2 ^ (e - ez).
Proof.
  intros Hle. unfold shl_align. destruct (ez - e) as [|d|d] eqn:E; cbn [fst].
  - replace (e - ez) with 0 by lia. change (2 ^ 0) with 1. lia.
  - lia.
  - rewrite iter_xO_value. replace (e - ez) with (Zpos d) by lia. reflexivity.
Qed.

(** A valid finite float has at most 53 digits, exactly 53 above the least
    exponent, and no exponent below the least. *)
Lemma valid_finite (s : bool) (m : positive) (e : Z) :
  valid_binary (S754_finite s m e) = true ->
  Zpos (digits2_pos m) <= 53 /\ -1074 <= e /\
  (-1074 < e -> Zpos (digits2_pos m) = 53).
Proof.
  cbn [valid_binary bounded]. intros Hv. apply andb_prop in Hv as [Hc _].
  unfold canonical_mantissa in Hc. apply Z.eqb_eq in Hc. rewrite fexp64 in Hc. lia.
Qed.

Lemma digits2_pos_ge (p : positive) : 2 ^ (Zpos (digits2_pos p) - 1) <= Zpos p.
Proof.
  rewrite digits2_pos_size. pose proof (Pos.size_le p) as H.
  apply Pos2Z.pos_le_pos in H. rewrite Pos2Z.inj_pow in H.
  change (Zpos p~0) with (2 * Zpos p) in H.
  replace (Zpos (Pos.size p)) with (Zpos (Pos.size p) - 1 + 1) in H by lia.
  rewrite Z.pow_add_r in H by lia. change (2 ^ 1) with 2 in H. lia.
Qed.

(** Of two valid positive mantissas, the one with the smaller exponent is
    the smaller number. *)
Lemma lower_exponent_smaller (m1 m2 : positive) (e1 e2 : Z) (s1 s2 : bool) :
  valid_binary (S754_finite s1 m1 e1) = true ->
  valid_binary (S754_finite s2 m2 e2) = true ->
  e1 < e2 -> Zpos m1 < Zpos m2 * 2 ^ (e2 - e1).
Proof.
  intros V1 V2 Hlt.
  destruct (valid_finite _ _ _ V1) as (D1 & L1 & _).
  destruct (valid_finite _ _ _ V2) as (_ & _ & D2).
  pose proof (digits2_pos_gt m1) as G1.
  pose proof (digits2_pos_ge m2) as G2. rewrite D2 in G2 by lia.
  change (2 ^ (53 - 1)) with (2 ^ 52) in G2.
  assert (2 ^ Zpos (digits2_pos m1) <= 2 ^ 53) by (apply Z.pow_le_mono_r; lia).
  assert (2 ^ 1 <= 2 ^ (e2 - e1)) by (apply Z.pow_le_mono_r; lia).
  change (2 ^ 1) with 2 in *. change (2 ^ 53) with (2 * 2 ^ 52) in *.
  nia.
Qed.

Lemma compare_cont_le (m1 m2 : positive) :
  Pos.compare_cont Eq m1 m2 <> Gt -> Zpos m1 <= Zpos m2.
Proof.
  change (Pos.compare_cont Eq m1 m2) with (Pos.compare m1 m2).
  intros H. apply Pos2Z.pos_le_pos. exact H.
Qed.

Lemma compare_cont_ge (m1 m2 : positive) :
  Pos.compare_cont Eq m1 m2 <> Lt -> Zpos m2 <= Zpos m1.
Proof.
  change (Pos.compare_cont Eq m1 m2) with (Pos.compare m1 m2).
  intros H. apply Pos2Z.pos_le_pos. apply Pos.compare_ge_iff in H. exact H.
Qed.

(** The difference of two finite floats in order is not positive. *)
Lemma SFsub_nonpos (x y : spec_float) :
  valid_binary x = true -> valid_binary y = true ->
  SF_finite x -> SF_finite y ->
  SFleb x y = true -> SF_nonpos (SFsub prec emax x y).
Proof.
  intros Vx Vy Fx Fy. unfold SFleb.
  destruct x as [sx|sx| |sx mx ex], y as [sy|sy| |sy my ey];
    cbn [SF_finite] in Fx, Fy; try tauto; cbn [SFsub SFcompare].
  - intros _. destruct sx, sy; exact I.
  - destruct sy; [discriminate|]. intros _. exact I.
  - destruct sx; [|discriminate]. intros _. exact I.
  - intros Hle.
    pose proof (shl_align_value mx ex (Z.min ex ey) ltac:(lia)) as Ax.
    pose proof (shl_align_value my ey (Z.min ex ey) ltac:(lia)) as Ay.
    destruct (shl_align mx ex (Z.min ex ey)) as [ax ex1].
    destruct (shl_align my ey (Z.min ex ey)) as [ay ey1].
    cbn [fst] in *.
    assert (Hz : cond_Zopp sx (Zpos ax) - cond_Zopp sy (Zpos ay) <= 0).
    { destruct sx, sy; cbn [cond_Zopp]; try discriminate; try lia.
      - destruct (ex ?= ey) eqn:E.
        + apply Z.compare_eq in E. subst ey.
          assert (Hc : Pos.compare_cont Eq mx my <> Lt)
            by (destruct (Pos.compare_cont Eq mx my); simpl in Hle; congruence).
          apply compare_cont_ge in Hc.
          rewrite Z.min_id, Z.sub_diag in Ax, Ay. change (2 ^ 0) with 1 in *. lia.
        + discriminate.
        + rewrite Z.compare_gt_iff in E.
          pose proof (lower_exponent_smaller my mx ey ex _ _ Vy Vx E).
          rewrite Z.min_r in Ax, Ay by lia. rewrite Z.sub_diag in Ay.
          change (2 ^ 0) with 1 in *. lia.
      - destruct (ex ?= ey) eqn:E.
        + apply Z.compare_eq in E. subst ey.
          assert (Hc : Pos.compare_cont Eq mx my <> Gt)
            by (destruct (Pos.compare_cont Eq mx my); congruence).
          apply compare_cont_le in Hc.
          rewrite Z.min_id, Z.sub_diag in Ax, Ay. change (2 ^ 0) with 1 in *. lia.
        + rewrite Z.compare_lt_iff in E.
          pose proof (lower_exponent_smaller mx my ex ey _ _ Vx Vy E).
          rewrite Z.min_l in Ax, Ay by lia. rewrite Z.sub_diag in Ax.
          change (2 ^ 0) with 1 in *. lia.
        + discriminate. }
    unfold binary_normalize.
    destruct (cond_Zopp sx (Zpos ax) - cond_Zopp sy (Zpos ay)) as [|m|m];
      [exact I|lia|].
    apply SF_signed_nonpos, binary_round_signed.
Qed.


(** Dividing by a positive finite float keeps a number at or below zero
    there. *)
Lemma SFdiv_nonpos (x : spec_float) (m : positive) (e : Z) :
  SF_nonpos x -> SF_nonpos (SFdiv prec emax x (S754_finite false m e)).
Proof.
  destruct x as [sx|sx| |sx mx ex]; cbn [SF_nonpos SFdiv]; try tauto.
  - destruct sx; tauto.
  - destruct sx; [intros _|tauto].
    destruct (SFdiv_core_binary prec emax (Zpos mx) ex (Zpos m) e) as [[mz ez] lz] eqn:E.
    apply SF_signed_nonpos. cbn [xorb]. apply binary_round_aux_signed.
    unfold SFdiv_core_binary in E.
    set (m' := match _ - _ - _ with Zpos _ => _ | Z0 => _ | Zneg _ => _ end) in E.
    assert (Hm' : 0 <= m').
    { unfold m'. destruct (_ - _ - _); [lia| |lia]. apply Z.shiftl_nonneg. lia. }
    pose proof (Z.div_pos m' (Zpos m) Hm' ltac:(lia)) as Hq.
    unfold Z.div in Hq. destruct (Z.div_eucl m' (Zpos m)) as [q r].
    injection E as <- _ _. exact Hq.
Qed.

Lemma SF_nonpos_leb_zero (x : spec_float) :
  SF_nonpos x -> SFleb x (S754_zero false) = true.
Proof.
  destruct x as [s|s| |s m e]; cbn [SF_nonpos]; try tauto;
    destruct s; try tauto; reflexivity.
Qed.

Lemma is_finite_SF (x : float) : is_finite x = true -> SF_finite (Prim2SF x).
Proof.
  unfold is_finite, is_nan, is_infinity.
  rewrite !FloatAxioms.eqb_spec, abs_spec. unfold SFeqb.
  change (Prim2SF infinity) with (S754_infinity false).
  destruct (Prim2SF x) as [s|s| |s m e]; cbn [SF_finite]; try (intros _; exact I);
    [destruct s|]; discriminate.
Qed.

(** The years between a clock and a birth instant at or after it are at
    most zero. *)
Lemma years_nonpositive (now birth : float) :
  is_finite now = true -> is_finite birth = true ->
  (now <=? birth)%float = true ->
  ((now - birth) / (1000 * 60 * 60 * 24 * 365.25) <=? 0)%float = true.
Proof.
  intros Hn Hb Hle. rewrite leb_spec in Hle |- *.
  rewrite div_spec, sub_spec.
  change (Prim2SF (1000 * 60 * 60 * 24 * 365.25))
    with (S754_finite false 8272635494400000 (-18)).
  change (Prim2SF 0) with (S754_zero false).
  apply SF_nonpos_leb_zero, SFdiv_nonpos, SFsub_nonpos;
    auto using Prim2SF_valid, is_finite_SF.
Qed.

End SignFacts.

Section PositiveFacts.
Local Open Scope Z_scope.

(** Above the least exponent the shift to the format keeps the mantissa
    positive and the magnitude as it is. *)
Lemma shr_fexp_pos (m e : Z) (l : location) (r : shr_record) (e' : Z) :
  0 < m -> -1073 <= Zdigits2 m + e ->
  shr_fexp prec emax m e l = (r, e') ->
  0 < shr_m r /\ Zdigits2 (shr_m r) + e' = Zdigits2 m + e.
Proof.
  intros Hm Hd. unfold shr_fexp, shr.
  pose proof (shr_record_of_loc_m m l) as Em.
  destruct (fexp prec emax (Zdigits2 m + e) - e) as [|n|n] eqn:En;
    intros [= <- <-].
  - rewrite Em. lia.
  - destruct (iter_shr_1_digits n (shr_record_of_loc m l)) as [H1 E1]; [lia|].
    rewrite Em in E1. rewrite fexp64 in En.
    assert (Hpos : 1 <= Zdigits2 (shr_m (SpecFloat.iter_pos shr_1 n (shr_record_of_loc m l))))
      by lia.
    split; [|lia].
    destruct (shr_m (SpecFloat.iter_pos shr_1 n (shr_record_of_loc m l)));
      [simpl in Hpos; lia|lia|lia].
  - rewrite Em. lia.
Qed.

Lemma round_nearest_even_ge (m : Z) (l : location) : m <= round_nearest_even m l.
Proof.
  unfold round_nearest_even. destruct l as [|[]]; try lia.
  destruct (Z.even m); lia.
Qed.

Lemma Zdigits2_mono (a b : Z) : 0 < a -> a <= b -> Zdigits2 a <= Zdigits2 b.
Proof.
  intros Ha Hab. destruct a as [|a|a]; [lia| |lia]. destruct b as [|b|b]; [lia| |lia].
  cbn [Zdigits2]. apply digits2_pos_le; [lia|].
  pose proof (digits2_pos_gt b). lia.
Qed.

(** Rounding a positive mantissa above the least exponent gives a positive
    float. *)
Lemma binary_round_aux_pos (mx ex : Z) (l : location) :
  0 < mx -> -1073 <= Zdigits2 mx + ex ->
  SF_pos (binary_round_aux prec emax false mx ex l).
Proof.
  intros Hmx Hd. unfold binary_round_aux.
  destruct (shr_fexp prec emax mx ex l) as [r1 e1] eqn:E1.
  destruct (shr_fexp_pos _ _ _ _ _ Hmx Hd E1) as (H1 & D1).
  pose proof (round_nearest_even_ge (shr_m r1) (loc_of_shr_record r1)) as Hge.
  pose proof (Zdigits2_mono _ _ H1 Hge) as Hdig.
  destruct (shr_fexp prec emax (round_nearest_even (shr_m r1) (loc_of_shr_record r1)) e1 loc_Exact)
    as [r2 e2] eqn:E2.
  assert (Hr : 0 < round_nearest_even (shr_m r1) (loc_of_shr_record r1)) by lia.
  assert (Hdr : -1073 <= Zdigits2 (round_nearest_even (shr_m r1) (loc_of_shr_record r1)) + e1)
    by lia.
  destruct (shr_fexp_pos _ _ _ _ _ Hr Hdr E2) as (H2 & _).
  destruct (shr_m r2) as [|m|m]; [lia| |lia].
  destruct (e2 <=? emax - prec); exact I.
Qed.

(** A float from one on, divided by a float of the binade of [2 ^ 34], is
    above zero. *)
Lemma SFdiv_pos (x : spec_float) (mo m2 : positive) :
  valid_binary x = true ->
  SFleb (S754_finite false mo (-52)) x = true ->
  Zpos (digits2_pos m2) = 53 ->
  SF_pos (SFdiv prec emax x (S754_finite false m2 (-18))).
Proof.
  intros Vx Hle D2. unfold SFleb in Hle.
  destruct x as [sx|sx| |sx m1 e1]; cbn [SFcompare] in Hle; try discriminate Hle.
  - destruct sx; [discriminate Hle|exact I].
  - destruct sx; [discriminate Hle|].
    assert (He : -52 <= e1).
    { destruct (-52 ?= e1) eqn:E; try discriminate Hle.
      - apply Z.compare_eq in E. lia.
      - rewrite Z.compare_lt_iff in E. lia. }
    destruct (valid_finite _ _ _ Vx) as (_ & _ & D1). specialize (D1 ltac:(lia)).
    cbn [SFdiv xorb].
    destruct (SFdiv_core_binary prec emax (Zpos m1) e1 (Zpos m2) (-18))
      as [[mz ez] lz] eqn:E.
    unfold SFdiv_core_binary in E. cbn [Zdigits2] in E.
    rewrite D1, D2, fexp64 in E.
    replace (Z.min (Z.max (53 + e1 - (53 + -18) - 53) (-1074)) (e1 - -18))
      with (e1 - 35) in E by lia.
    replace (e1 - -18 - (e1 - 35)) with 53 in E by lia.
    rewrite Z.shiftl_mul_pow2 in E by lia.
    pose proof (digits2_pos_ge m1) as G1. rewrite D1 in G1.
    pose proof (digits2_pos_gt m2) as G2. rewrite D2 in G2.
    change (2 ^ (53 - 1)) with (2 ^ 52) in G1.
    assert (Hq : 2 ^ 52 <= Zpos m1 * 2 ^ 53 / Zpos m2).
    { apply Z.div_le_lower_bound; [lia|]. nia. }
    unfold Z.div in Hq.
    destruct (Z.div_eucl (Zpos m1 * 2 ^ 53) (Zpos m2)) as [q r].
    injection E as <- <- _.
    assert (Hpos : 0 < q) by (pose proof (Z.pow_pos_nonneg 2 52); lia).
    apply binary_round_aux_pos; [exact Hpos|].
    assert (53 <= Zdigits2 q); [|lia].
    destruct q as [|q|q]; [lia| |lia]. cbn [Zdigits2].
    pose proof (digits2_pos_gt q) as Gq.
    assert (2 ^ 52 < 2 ^ Zpos (digits2_pos q)) by lia.
    apply Z.pow_lt_mono_r_iff in H; lia.
Qed.

Lemma SF_pos_ltb_zero (x : spec_float) :
  SF_pos x -> SFltb (S754_zero false) x = true.
Proof.
  destruct x as [s|s| |s m e]; cbn [SF_pos]; try tauto;
    destruct s; try tauto; reflexivity.
Qed.

(** A difference of a millisecond or more is a positive number of years. *)
Lemma years_positive (diffMs : float) :
  (1 <=? diffMs)%float = true ->
  (0 <? diffMs / (1000 * 60 * 60 * 24 * 365.25))%float = true.
Proof.
  intros Hle. rewrite leb_spec in Hle. rewrite ltb_spec, div_spec.
  change (Prim2SF (1000 * 60 * 60 * 24 * 365.25))
    with (S754_finite false 8272635494400000 (-18)).
  change (Prim2SF 0) with (S754_zero false).
  change (Prim2SF 1) with (S754_finite false 4503599627370496 (-52)) in Hle.
  apply SF_pos_ltb_zero.
  apply (SFdiv_pos _ 4503599627370496); [apply Prim2SF_valid|exact Hle|reflexivity].
Qed.

(** A difference that compares is the difference of numbers. *)
Lemma difference_not_nan (now birth : float) :
  (1 <=? now - birth)%float = true -> is_nan birth = false.
Proof.
  intros Hle. rewrite leb_spec, sub_spec in Hle.
  unfold is_nan. rewrite FloatAxioms.eqb_spec. unfold SFeqb, SFleb in *.
  destruct (Prim2SF birth) as [s|s| |s m e].
  - reflexivity.
  - destruct s; reflexivity.
  - destruct (Prim2SF now) as [s'|s'| |s' m' e']; discriminate Hle.
  - rewrite SFcompare_refl_finite. reflexivity.
Qed.

End PositiveFacts.

(** ** The effect of the handlers *)

Section HandlerFacts.
Context `{Host}.

Lemma saveToLS_run (key : string) (value : JSValue) (w : World) :
  exists c,
    run (saveToLS key value) w
    = with_console c (with_items (stored_items key value (localStorage w)) w).
Proof.
  destruct (saveToLS_spec key value w) as [c Hc]. exists c.
  unfold run. rewrite Hc. reflexivity.
Qed.

(** [readFromLS] changes nothing but the console. *)
Lemma readFromLS_run (key : string) (w : World) :
  exists c, run (readFromLS key) w = with_console c w.
Proof.
  destruct (readFromLS_spec key w) as [c Hc]. exists c.
  unfold run. rewrite Hc. reflexivity.
Qed.

Lemma readFromLS_result (key : string) (w : World) :
  result (readFromLS key) w = Normal (load_value key (localStorage w)).
Proof.
  destruct (readFromLS_spec key w) as [c Hc]. unfold result. rewrite Hc. reflexivity.
Qed.

Lemma onDateChange_spec (w : World) :
  exists c,
    onDateChange w
    = (Normal tt,
       if truthy_string (dateInput_value (dom w))
       then with_console c
              (with_items
                 (stored_items LS_KEYS.BIRTH (JSString (dateInput_value (dom w)))
                    (localStorage w)) w)
       else w).
Proof.
  unfold onDateChange. js_step.
  destruct (truthy_string (dateInput_value (dom w))).
  - destruct (saveToLS_spec LS_KEYS.BIRTH (JSString (dateInput_value (dom w))) w)
      as [c Hc]. exists c. exact Hc.
  - exists []. reflexivity.
Qed.

Lemma onCalculateClick_spec (w : World) :
  exists c shown,
    performCalculation w = displayResult shown w /\
    onCalculateClick w
    = (Normal tt,
       let st := mkStorage (stored_items LS_KEYS.RESULT (JSString shown) (localStorage w))
                   (accessible (localStorage w)) (quota (localStorage w)) in
       mkWorld (set_text shown (dom w))
         (mkStorage
            (if truthy_string (dateInput_value (dom w))
             then stored_items LS_KEYS.BIRTH (JSString (dateInput_value (dom w))) st
             else items st)
            (accessible (localStorage w)) (quota (localStorage w)))
         c (clock w)).
Proof.
  destruct (performCalculation_displayResult w) as (shown & Hshown & _).
  destruct (displayResult_spec shown w) as [c1 Hc1].
  unfold onCalculateClick.
  erewrite bind_normal; [|rewrite Hshown; exact Hc1].
  js_step. cbn [with_console with_items with_dom dom set_text dateInput_value].
  destruct (truthy_string (dateInput_value (dom w))).
  - match goal with |- context [saveToLS ?k ?v ?w'] =>
      destruct (saveToLS_spec k v w') as [c Hc]; rewrite Hc end.
    exists c, shown. split; [exact Hshown|]. reflexivity.
  - exists c1, shown. split; [exact Hshown|]. reflexivity.
Qed.

Lemma onThemeToggleChange_spec (w : World) :
  onThemeToggleChange w
  = applyTheme (JSString (if themeToggle_checked (dom w) then "dark" else "light")) w.
Proof.
  unfold onThemeToggleChange. js_step.
  destruct (themeToggle_checked (dom w)); reflexivity.
Qed.

End HandlerFacts.

(** ** The theme *)

Section ThemeFacts.
Context `{Host}.

Lemma set_theme_consistent (n : string) (d : DOM) :
  n = "dark" \/ n = "light" -> theme_consistent (set_theme n d).
Proof.
  intros [-> | ->]; [left|right]; repeat split.
Qed.

Lemma normalized_theme_values (theme : JSValue) :
  normalized_theme theme = "dark" \/ normalized_theme theme = "light".
Proof.
  destruct (normalized_theme_cases theme) as [[_ ->]|[_ ->]]; auto.
Qed.

Lemma applyTheme_run (theme : JSValue) (w : World) :
  exists c,
    run (applyTheme theme) w
    = with_console c
        (with_items
           (stored_items LS_KEYS.THEME (JSString (normalized_theme theme))
              (localStorage w))
           (with_dom (set_theme (normalized_theme theme)) w)).
Proof.
  destruct (applyTheme_spec theme w) as [c Hc]. exists c.
  unfold run. rewrite Hc. reflexivity.
Qed.

(** X1: whatever value [applyTheme] receives, afterwards the toggle and its
    label agree with the theme attribute, the date input and the result
    text are as before, and no item other than the theme has changed. *)
Theorem applyTheme_indicator (theme : JSValue) (w : World) :
  theme_consistent (dom (run (applyTheme theme) w)) /\
  dateInput_value (dom (run (applyTheme theme) w)) = dateInput_value (dom w) /\
  resultDiv_textContent (dom (run (applyTheme theme) w))
  = resultDiv_textContent (dom w) /\
  forall key : string,
    key <> LS_KEYS.THEME ->
    items (localStorage (run (applyTheme theme) w)) !! key
    = items (localStorage w) !! key.
Proof.
  destruct (applyTheme_run theme w) as [c ->]. cbn.
  split; [apply set_theme_consistent, normalized_theme_values|].
  split; [reflexivity|]. split; [reflexivity|].
  intros key Hne. apply stored_items_other. congruence.
Qed.

Lemma stored_items_twice (key : string) (value : JSValue) (st : Storage) :
  stored_items key value
    (mkStorage (stored_items key value st) (accessible st) (quota st))
  = stored_items key value st.
Proof.
  unfold stored_items. cbn [items accessible quota].
  destruct (accessible st); [|reflexivity].
  destruct (JSON_stringify value) as [text|e]; [|reflexivity]. cbn zeta.
  destruct (Nat.leb (storage_size (<[key:=stored_text text]> (items st))) (quota st)) eqn:E.
  - rewrite insert_insert_eq, E. reflexivity.
  - rewrite E. reflexivity.
Qed.

Lemma normalized_theme_twice (a : JSValue) :
  normalized_theme (JSString (normalized_theme a)) = normalized_theme a.
Proof.
  destruct (normalized_theme_values a) as [-> | ->]; reflexivity.
Qed.

(** X2: of two calls of [applyTheme] the second decides the look of the
    page, and calling it twice with one value leaves the page and the
    storage as one call does. *)
Theorem applyTheme_last_wins (a b : JSValue) (w : World) :
  dom (run (applyTheme a ;; applyTheme b) w) = dom (run (applyTheme b) w) /\
  localStorage (run (applyTheme a ;; applyTheme a) w)
  = localStorage (run (applyTheme a) w).
Proof.
  assert (Hseq : forall x y,
             run (applyTheme x ;; applyTheme y) w
             = run (applyTheme y) (run (applyTheme x) w)).
  { intros x y. destruct (applyTheme_spec x w) as [c Hc].
    unfold run at 1 3. rewrite (bind_normal _ _ _ _ _ Hc), Hc. reflexivity. }
  rewrite !Hseq.
  destruct (applyTheme_run a w) as [ca ->].
  destruct (applyTheme_run b w) as [cb ->].
  match goal with |- dom (run (applyTheme b) ?w1) = _ /\ _ =>
    destruct (applyTheme_run b w1) as [cb' ->];
    destruct (applyTheme_run a w1) as [ca' ->] end.
  cbn. split; [reflexivity|].
  f_equal. apply (stored_items_twice LS_KEYS.THEME _ (localStorage w)).
Qed.

(** X3: the handler of the toggle leaves the toggle as the user set it and
    sets the theme after it: dark when checked, light when not. *)
Theorem onThemeToggleChange_follows (w : World) :
  themeToggle_checked (dom (run onThemeToggleChange w))
  = themeToggle_checked (dom w) /\
  root_data_theme (dom (run onThemeToggleChange w))
  = Some (if themeToggle_checked (dom w) then "dark" else "light") /\
  switchText_textContent (dom (run onThemeToggleChange w))
  = (if themeToggle_checked (dom w) then "關燈" else "開燈").
Proof.
  unfold run. rewrite onThemeToggleChange_spec.
  match goal with |- context [applyTheme ?t w] =>
    destruct (applyTheme_run t w) as [c Hc]; unfold run in Hc; rewrite Hc end.
  destruct (themeToggle_checked (dom w)); repeat split.
Qed.

End ThemeFacts.

(** ** What every handler keeps *)

Ltac solve_elem := apply list_elem_of_In; simpl; tauto.

Section HandlerInvariants.
Context `{Host}.

Lemma keeps_items_refl (ks : list string) (m : gmap string string) :
  keeps_items ks m m.
Proof. split; auto. Qed.

Lemma keeps_items_trans (ks : list string) (m1 m2 m3 : gmap string string) :
  keeps_items ks m1 m2 -> keeps_items ks m2 m3 -> keeps_items ks m1 m3.
Proof.
  intros [A1 B1] [A2 B2]. split.
  - intros key Hk. rewrite A2, A1 by exact Hk. reflexivity.
  - auto.
Qed.

Lemma stored_items_keeps (ks : list string) (key : string) (value : JSValue)
    (st : Storage) :
  key ∈ ks -> keeps_items ks (items st) (stored_items key value st).
Proof.
  intros Hin. unfold stored_items.
  destruct (accessible st); [|apply keeps_items_refl].
  destruct (JSON_stringify value) as [text|e]; [|apply keeps_items_refl]. cbn zeta.
  destruct (Nat.leb _ _); [|apply keeps_items_refl].
  split.
  - intros k Hk. apply lookup_insert_ne. intros ->. contradiction.
  - intros k Hk. destruct (decide (key = k)) as [->|Hne].
    + rewrite lookup_insert_eq. eauto.
    + rewrite lookup_insert_ne by exact Hne. exact Hk.
Qed.

(** What a handler does to the world: it completes, leaves the clock and
    the limits of the storage alone and keeps the items outside its keys. *)
Lemma handle_effect (h : Handler) (w : World) :
  result (handle h) w = Normal tt /\
  keeps_items (written_keys h) (items (localStorage w))
    (items (localStorage (run (handle h) w))) /\
  accessible (localStorage (run (handle h) w)) = accessible (localStorage w) /\
  quota (localStorage (run (handle h) w)) = quota (localStorage w).
Proof.
  assert (Hclick :
    result onCalculateClick w = Normal tt /\
    keeps_items [LS_KEYS.RESULT; LS_KEYS.BIRTH] (items (localStorage w))
      (items (localStorage (run onCalculateClick w))) /\
    accessible (localStorage (run onCalculateClick w)) = accessible (localStorage w) /\
    quota (localStorage (run onCalculateClick w)) = quota (localStorage w)).
  { destruct (onCalculateClick_spec w) as (c & shown & _ & Hc).
    unfold result, run. rewrite Hc. cbn.
    split; [reflexivity|]. split; [|split; reflexivity].
    eapply keeps_items_trans.
    - apply (stored_items_keeps _ LS_KEYS.RESULT (JSString shown) (localStorage w)).
      solve_elem.
    - destruct (truthy_string _); [|apply keeps_items_refl].
      match goal with |- keeps_items _ _ (stored_items _ _ ?st) =>
        apply (stored_items_keeps _ LS_KEYS.BIRTH _ st) end.
      solve_elem. }
  destruct h as [| | | |key]; cbn [handle written_keys].
  - destruct (initFromStorage_spec w) as (c & n & Hc).
    unfold result, run. rewrite Hc. cbn.
    split; [reflexivity|]. split; [|split; reflexivity].
    apply stored_items_keeps. solve_elem.
  - exact Hclick.
  - destruct (onDateChange_spec w) as [c Hc].
    unfold result, run. rewrite Hc. cbn.
    split; [reflexivity|].
    destruct (truthy_string _); cbn;
      (split; [|split; reflexivity]); [|apply keeps_items_refl].
    apply stored_items_keeps. solve_elem.
  - unfold result, run. rewrite onThemeToggleChange_spec.
    match goal with |- context [applyTheme ?t w] =>
      destruct (applyTheme_spec t w) as [c Hc]; rewrite Hc end. cbn.
    split; [reflexivity|]. split; [|split; reflexivity].
    apply stored_items_keeps. solve_elem.
  - unfold onDateKeydown. destruct (String.eqb key "Enter"); [exact Hclick|].
    cbn. split; [reflexivity|]. split; [apply keeps_items_refl|split; reflexivity].
Qed.


(** X5: a handler changes no item outside its own keys (the theme for the
    load and the toggle, the birth date for the date input, the result and
    the birth date for the click and the Enter key) and removes no item. *)
Theorem handlers_keep_items (h : Handler) (w : World) :
  (forall key : string,
      key ∉ written_keys h ->
      items (localStorage (run (handle h) w)) !! key
      = items (localStorage w) !! key) /\
  (forall key : string,
      is_Some (items (localStorage w) !! key) ->
      is_Some (items (localStorage (run (handle h) w)) !! key)).
Proof. apply handle_effect. Qed.

End HandlerInvariants.

(** ** The restored session *)

Section RestoreFacts.
Context `{Host}.

(** The console after the three reads and the write of
    [initFromStorage]. *)
Lemma initFromStorage_effect (w : World) :
  exists c,
    initFromStorage w
    = (Normal tt,
       with_console c
         (with_items
            (stored_items LS_KEYS.THEME (JSString (restored_theme (localStorage w)))
               (localStorage w))
            (with_dom (restored_dom (localStorage w)) w))).
Proof.
  unfold initFromStorage.
  destruct (readFromLS_spec LS_KEYS.BIRTH w) as [c1 H1].
  erewrite bind_normal; [|exact H1].
  set (v1 := load_value LS_KEYS.BIRTH (localStorage w)).
  set (w1 := if ToBoolean v1 then run (set_dateInput_value v1) (with_console c1 w)
             else with_console c1 w).
  assert (E1 : (if ToBoolean v1 then set_dateInput_value v1 else ret tt) (with_console c1 w)
               = (Normal tt, w1)).
  { unfold w1. destruct (ToBoolean v1); reflexivity. }
  erewrite bind_normal; [|exact E1].
  destruct (readFromLS_spec LS_KEYS.RESULT w1) as [c2 H2].
  erewrite bind_normal; [|exact H2].
  assert (Es1 : localStorage w1 = localStorage w).
  { unfold w1. destruct (ToBoolean v1); reflexivity. }
  rewrite Es1. set (v2 := load_value LS_KEYS.RESULT (localStorage w)).
  set (w2 := if ToBoolean v2 then run (set_resultDiv_textContent v2) (with_console c2 w1)
             else with_console c2 w1).
  assert (E2 : (if ToBoolean v2 then set_resultDiv_textContent v2 else ret tt)
                 (with_console c2 w1) = (Normal tt, w2)).
  { unfold w2. destruct (ToBoolean v2); reflexivity. }
  erewrite bind_normal; [|exact E2].
  destruct (readFromLS_spec LS_KEYS.THEME w2) as [c3 H3].
  erewrite bind_normal; [|exact H3].
  assert (Es2 : localStorage w2 = localStorage w).
  { unfold w2. destruct (ToBoolean v2); exact Es1. }
  rewrite Es2.
  match goal with |- context [applyTheme ?t ?w'] =>
    destruct (applyTheme_spec t w') as [c4 H4]; rewrite H4; exists c4
  end.
  f_equal. unfold with_console, with_items, with_dom. cbn [dom localStorage console clock].
  rewrite Es2. fold (restored_theme (localStorage w)). f_equal.
  - unfold w2, w1, restored_dom, set_theme. fold v1 v2.
    destruct (ToBoolean v2), (ToBoolean v1); reflexivity.
  - unfold w2, w1. destruct (ToBoolean v2), (ToBoolean v1); reflexivity.
Qed.

Lemma initFromStorage_dom (w : World) :
  dom (run initFromStorage w) = restored_dom (localStorage w) (dom w).
Proof.
  destruct (initFromStorage_effect w) as [c Hc]. unfold run. rewrite Hc. reflexivity.
Qed.


End RestoreFacts.

Section HandlerDom.
Context `{Host}.



(** X7: [performCalculation] changes nothing of the page but the result
    text, and no item but the result. *)
Theorem performCalculation_frame (w : World) :
  dateInput_value (dom (run performCalculation w)) = dateInput_value (dom w) /\
  themeToggle_checked (dom (run performCalculation w))
  = themeToggle_checked (dom w) /\
  switchText_textContent (dom (run performCalculation w))
  = switchText_textContent (dom w) /\
  root_data_theme (dom (run performCalculation w)) = root_data_theme (dom w) /\
  forall key : string,
    key <> LS_KEYS.RESULT ->
    items (localStorage (run performCalculation w)) !! key
    = items (localStorage w) !! key.
Proof.
  destruct (performCalculation_displayResult w) as (shown & Hshown & _).
  destruct (displayResult_spec shown w) as [c Hc].
  unfold run. rewrite Hshown, Hc. cbn.
  repeat (split; [reflexivity|]).
  intros key Hne. apply stored_items_other. congruence.
Qed.

Lemma load_value_ext (key : string) (st st' : Storage) :
  accessible st' = accessible st ->
  items st' !! key = items st !! key ->
  load_value key st' = load_value key st.
Proof. unfold load_value. intros -> ->. reflexivity. Qed.

(** X8: saving under one key does not change what is read under another
    key. *)
Theorem saveToLS_other_key (k1 k2 : string) (v : JSValue) (w : World) :
  k1 <> k2 ->
  result (saveToLS k1 v ;; readFromLS k2) w = result (readFromLS k2) w.
Proof.
  intros Hne. destruct (saveToLS_spec k1 v w) as [c Hc].
  erewrite result_bind_normal; [|exact Hc].
  rewrite !readFromLS_result. f_equal.
  apply load_value_ext; [reflexivity|]. cbn.
  apply stored_items_other, Hne.
Qed.

(** X9: [readFromLS] writes nothing: the page, the storage and the clock
    are as before, and a second read returns what the first returned. *)
Theorem readFromLS_reads_only (key : string) (w : World) :
  dom (run (readFromLS key) w) = dom w /\
  localStorage (run (readFromLS key) w) = localStorage w /\
  result (readFromLS key ;; readFromLS key) w = result (readFromLS key) w.
Proof.
  destruct (readFromLS_spec key w) as [c Hc].
  unfold run. rewrite Hc. cbn. split; [reflexivity|]. split; [reflexivity|].
  erewrite result_bind_normal; [|exact Hc].
  rewrite !readFromLS_result. reflexivity.
Qed.

End HandlerDom.

(** ** The calculation, case by case *)

Ltac js_shown :=
  match goal with
  | |- context [displayResult ?t ?w] =>
      fold (run (displayResult t) w); rewrite (displayResult_shown t w)
  end.

Section CalculationCases.
Context `{Host}.

(** X10: a birth date that parses to a finite time not before the finite
    clock shows the message that the date has to be earlier than now. *)
Theorem future_date_message (w : World) :
  dateInput_value (dom w) <> "" ->
  is_finite (Date_parse (dateInput_value (dom w) +:+ "T00:00:00")) = true ->
  is_finite (clock w) = true ->
  (clock w <=? Date_parse (dateInput_value (dom w) +:+ "T00:00:00"))%float = true ->
  resultDiv_textContent (dom (run performCalculation w)) = "出生日期必須早於現在".
Proof.
  intros Hv Hbirth Hnow Hle. apply truthy_string_nonempty in Hv.
  unfold run, performCalculation.
  js_step. rewrite Hv, (is_finite_not_nan _ Hbirth). cbn [negb].
  js_step. rewrite (years_nonpositive _ _ Hnow Hbirth Hle).
  js_shown. reflexivity.
Qed.

(** X11: the message of a failed calculation is shown exactly when the
    input passed the checks and [dogAgeToHuman] returned a number that is
    NaN or infinite; the test of its result for [null] never decides. *)
Theorem failure_message_cause (w : World) :
  resultDiv_textContent (dom (run performCalculation w))
  = "計算失敗：輸入值可能不合理" <->
  dateInput_value (dom w) <> "" /\
  is_nan (Date_parse (dateInput_value (dom w) +:+ "T00:00:00")) = false /\
  (elapsed_years w <=? 0)%float = false /\
  exists h : float,
    dogAgeToHuman (elapsed_years w) = Some h /\
    (is_nan h = true \/ is_finite h = false).
Proof.
  unfold run, performCalculation.
  js_step. rewrite <- truthy_string_nonempty.
  destruct (truthy_string (dateInput_value (dom w))); cbn [negb].
  2:{ js_shown. split; [discriminate|]. intros [Hv _]. discriminate Hv. }
  destruct (is_nan (Date_parse _)).
  { js_shown. split; [discriminate|]. intros (_ & Hn & _). discriminate Hn. }
  js_step. fold (elapsed_years w).
  destruct (elapsed_years w <=? 0)%float eqn:Eguard.
  { js_shown. split; [discriminate|]. intros (_ & _ & Hg & _). discriminate Hg. }
  destruct (dogAgeToHuman (elapsed_years w)) as [h|] eqn:Eage.
  2:{ unfold dogAgeToHuman in Eage. rewrite Eguard in Eage. discriminate Eage. }
  destruct (is_nan h) eqn:En; cbn [orb].
  { js_shown. split; [|reflexivity]. intros _. repeat split. exists h. auto. }
  destruct (is_finite h) eqn:Ef; cbn [negb].
  - js_shown. split; [simpl; discriminate|].
    intros (_ & _ & _ & h' & [= <-] & [Hn|Hf]); congruence.
  - js_shown. split; [|reflexivity]. intros _. repeat split. exists h. auto.
Qed.

(** X12: a birth date a millisecond or more before the clock passes the
    checks of the input: the elapsed years are positive, and neither the
    prompt for a valid date nor the message on a future date is shown. *)
Theorem past_date_accepted (w : World) :
  dateInput_value (dom w) <> "" ->
  (1 <=? clock w - Date_parse (dateInput_value (dom w) +:+ "T00:00:00"))%float
  = true ->
  (0 <? elapsed_years w)%float = true /\
  resultDiv_textContent (dom (run performCalculation w))
  <> "請輸入有效的出生年月日" /\
  resultDiv_textContent (dom (run performCalculation w)) <> "出生日期必須早於現在".
Proof.
  intros Hv Hms. apply truthy_string_nonempty in Hv.
  pose proof (years_positive _ Hms) as Hpos. fold (elapsed_years w) in Hpos.
  split; [exact Hpos|].
  unfold run, performCalculation.
  js_step. rewrite Hv, (difference_not_nan _ _ Hms). cbn [negb].
  js_step. fold (elapsed_years w). rewrite (ltb_leb_false _ _ Hpos).
  destruct (dogAgeToHuman (elapsed_years w)) as [h|].
  - destruct (is_nan h || negb (is_finite h)); js_shown; simpl; split; discriminate.
  - js_shown. split; discriminate.
Qed.

(** X13: for a birth date a millisecond or more before the clock and a
    logarithm in range, the result text shows the elapsed years with two
    decimals and sixteen times their logarithm plus thirty-one with one
    decimal, the years below 0.01 counted as 0.01. *)
Theorem calculation_shows_ages (w : World) :
  dateInput_value (dom w) <> "" ->
  (1 <=? clock w - Date_parse (dateInput_value (dom w) +:+ "T00:00:00"))%float
  = true ->
  Math_log_bounded_at (elapsed_years w) ->
  resultDiv_textContent (dom (run performCalculation w))
  = "狗狗現在大約 "
    +:+ Number_toString (String_toNumber (Number_toFixed (elapsed_years w) 2))
    +:+ " 歲的狗年齡，" +:+ newline +:+ "換算成人類大約是 "
    +:+ Number_toString
          (String_toNumber
             (Number_toFixed
                (16 * Math_log (if (elapsed_years w <? 0.01)%float then 0.01%float
                                else elapsed_years w) + 31)%float 1))
    +:+ " 歲。".
Proof.
  intros Hv Hms Hlog. apply truthy_string_nonempty in Hv.
  pose proof (years_positive _ Hms) as Hpos. fold (elapsed_years w) in Hpos.
  pose proof (difference_not_nan _ _ Hms) as Hnan.
  destruct (dogAgeToHuman_finite _ Hpos Hlog) as (h & Hage & Hn & Hf).
  pose proof (ltb_leb_false _ _ Hpos) as Hguard.
  unfold run.
  rewrite (performCalculation_success w h Hv Hnan Hguard Hage Hn Hf).
  js_shown.
  unfold dogAgeToHuman in Hage. rewrite Hguard in Hage.
  injection Hage as <-. reflexivity.
Qed.

(** X14: a click shows what [performCalculation] shows and then stores the
    date input under the birth key whenever it is not empty, also when the
    date is not valid; with an empty input the birth item is left as it
    was. *)
Theorem onCalculateClick_saves_birth (w : World) (text : string) :
  JSON_stringify (JSString (dateInput_value (dom w))) = Normal (Some text) ->
  setItem_succeeds LS_KEYS.BIRTH text (run performCalculation w) ->
  resultDiv_textContent (dom (run onCalculateClick w))
  = resultDiv_textContent (dom (run performCalculation w)) /\
  items (localStorage (run onCalculateClick w)) !! LS_KEYS.BIRTH
  = if truthy_string (dateInput_value (dom w)) then Some text
    else items (localStorage w) !! LS_KEYS.BIRTH.
Proof.
  intros Ej Hs.
  destruct (onCalculateClick_spec w) as (c & shown & Hshown & Hc).
  destruct (displayResult_spec shown w) as [c1 Hc1].
  unfold run in *. rewrite Hc. rewrite Hshown, Hc1 in Hs |- *.
  cbn [snd dom localStorage items set_text resultDiv_textContent with_console
       with_items with_dom].
  split; [reflexivity|].
  destruct (truthy_string (dateInput_value (dom w))).
  - match goal with |- stored_items ?k ?v ?st !! _ = _ =>
      pose proof (stored_items_success k v (Some text)
                    (mkWorld (set_text shown (dom w)) st c1 (clock w)) Ej Hs) as Ei
    end.
    cbn [localStorage] in Ei. rewrite Ei. apply lookup_insert_eq.
  - apply stored_items_other. discriminate.
Qed.

End CalculationCases.

(** ** A session and the next one *)

Section Sessions.
Context `{HL : HostLaws}.

Lemma stored_items_string_item (k s : string) (st : Storage) (key : string) :
  string_item (items st) key ->
  string_item (stored_items k (JSString s) st) key.
Proof.
  intros Hitem. unfold stored_items.
  destruct (accessible st); [|exact Hitem].
  destruct (JSON_string_roundtrip s) as (text & Ej & _). rewrite Ej.
  cbn [stored_text].
  destruct (Nat.leb _ _); [|exact Hitem].
  destruct (decide (k = key)) as [->|Hne].
  - right. exists s, text. split; [exact Ej|apply lookup_insert_eq].
  - unfold string_item. rewrite lookup_insert_ne by exact Hne. exact Hitem.
Qed.

Lemma string_item_load (key : string) (st : Storage) :
  string_item (items st) key ->
  load_value key st = JSNull \/ exists s : string, load_value key st = JSString s.
Proof.
  unfold load_value. intros [Hnone|(s & text & Ej & Hsome)].
  - rewrite Hnone. destruct (accessible st); auto.
  - rewrite Hsome. destruct (accessible st); [|auto].
    destruct (JSON_string_roundtrip s) as (text' & Ej' & Ep).
    assert (text' = text) by congruence. subst text'.
    destruct (truthy_string text); [|auto].
    rewrite Ep. eauto.
Qed.

(** X15: when every stored item holds the JSON text of a string, it does so
    again after any handler, and every key then reads as [null] or as a
    string. *)
Theorem handlers_keep_strings (h : Handler) (w : World) :
  (forall key : string, string_item (items (localStorage w)) key) ->
  (forall key : string,
      string_item (items (localStorage (run (handle h) w))) key) /\
  (forall key : string,
      result (readFromLS key) (run (handle h) w) = Normal JSNull \/
      exists s : string,
        result (readFromLS key) (run (handle h) w) = Normal (JSString s)).
Proof.
  intros Hitems.
  assert (Hkeep : forall key : string,
             string_item (items (localStorage (run (handle h) w))) key).
  { assert (Hclick : forall key : string,
               string_item (items (localStorage (run onCalculateClick w))) key).
    { intros key. destruct (onCalculateClick_spec w) as (c & shown & _ & Hc).
      unfold run. rewrite Hc. cbn [snd localStorage items].
      destruct (truthy_string _).
      - apply stored_items_string_item. cbn [items].
        apply stored_items_string_item, Hitems.
      - apply stored_items_string_item, Hitems. }
    intros key. destruct h as [| | | |k]; cbn [handle].
    - destruct (initFromStorage_effect w) as [c Hc]. unfold run. rewrite Hc.
      apply stored_items_string_item, Hitems.
    - apply Hclick.
    - destruct (onDateChange_spec w) as [c Hc]. unfold run. rewrite Hc.
      destruct (truthy_string _); [|apply Hitems].
      apply stored_items_string_item, Hitems.
    - unfold run. rewrite onThemeToggleChange_spec.
      match goal with |- context [applyTheme ?t w] =>
        destruct (applyTheme_spec t w) as [c Hc]; rewrite Hc end.
      apply stored_items_string_item, Hitems.
    - unfold onDateKeydown. destruct (String.eqb k "Enter"); [apply Hclick|apply Hitems]. }
  split; [exact Hkeep|].
  intros key. rewrite readFromLS_result.
  destruct (string_item_load key _ (Hkeep key)) as [->|[s ->]]; eauto.
Qed.



(** X17: a date picked in the date input, once stored, is the date the next
    load of the page puts into the date input, as the input sanitizes
    it. *)
Theorem birth_restored (w w' : World) (text : string) :
  dateInput_value (dom w) <> "" ->
  JSON_stringify (JSString (dateInput_value (dom w))) = Normal (Some text) ->
  setItem_succeeds LS_KEYS.BIRTH text w ->
  localStorage w' = localStorage (run onDateChange w) ->
  dateInput_value (dom (run initFromStorage w'))
  = input_sanitize (dateInput_value (dom w)).
Proof.
  intros Hv Ej Hs Hst.
  destruct (onDateChange_spec w) as [c Hc].
  apply (f_equal snd) in Hc. fold (run onDateChange w) in Hc. rewrite Hc in Hst.
  pose proof Hv as Ht. apply truthy_string_nonempty in Ht. rewrite Ht in Hst.
  cbn [snd] in Hst.
  rewrite initFromStorage_dom. unfold restored_dom, set_theme.
  cbn [dateInput_value].
  assert (Hload : load_value LS_KEYS.BIRTH (localStorage w')
                  = JSString (dateInput_value (dom w))).
  { rewrite Hst.
    exact (load_after_store_string LS_KEYS.BIRTH text _ w c id Ej Hs). }
  rewrite Hload. cbn [ToBoolean ToString]. rewrite Ht. reflexivity.
Qed.


End Sessions.

Section LoadFacts.
Context `{Host}.


Lemma readFromLS_disabled (key : string) (w : World) :
  accessible (localStorage w) = false ->
  readFromLS key w
  = (Normal JSNull, with_console (console w ++ [("LocalStorage 讀取失敗", SecurityError)]) w).
Proof.
  intros Ha. unfold readFromLS, try_catch, bind, get_localStorage.
  rewrite Ha. reflexivity.
Qed.

Lemma saveToLS_disabled (key : string) (value : JSValue) (w : World) :
  accessible (localStorage w) = false ->
  saveToLS key value w
  = (Normal tt, with_console (console w ++ [("LocalStorage 寫入失敗", SecurityError)]) w).
Proof.
  intros Ha. unfold saveToLS, try_catch, bind, get_localStorage.
  rewrite Ha. reflexivity.
Qed.

(** X20: with the storage disabled the load of the page still completes:
    it leaves the date input and the result text as they were, applies the
    light theme, stores nothing, and logs the three failed reads and the
    failed write. *)
Theorem initFromStorage_without_storage (w : World) :
  accessible (localStorage w) = false ->
  initFromStorage w
  = (Normal tt,
     mkWorld (set_theme "light" (dom w)) (localStorage w)
       (console w ++ [("LocalStorage 讀取失敗", SecurityError);
                      ("LocalStorage 讀取失敗", SecurityError);
                      ("LocalStorage 讀取失敗", SecurityError);
                      ("LocalStorage 寫入失敗", SecurityError)])
       (clock w)).
Proof.
  intros Ha. unfold initFromStorage.
  erewrite bind_normal; [|apply readFromLS_disabled, Ha]. cbn [ToBoolean].
  js_step.
  erewrite bind_normal; [|apply readFromLS_disabled, Ha]. cbn [ToBoolean].
  js_step.
  erewrite bind_normal; [|apply readFromLS_disabled, Ha]. cbn [ToBoolean].
  unfold applyTheme. cbn [strict_equal negb String.eqb Ascii.eqb Bool.eqb].
  js_step.
  erewrite bind_normal; [|apply saveToLS_disabled, Ha].
  cbn [strict_equal String.eqb Ascii.eqb Bool.eqb].
  js_step.
  unfold set_switchText_textContent, with_dom, with_console, set_theme.
  cbn. rewrite <- !app_assoc. reflexivity.
Qed.

End LoadFacts.

(** ** The further statements at concrete inputs *)

Lemma saveToLS_other_key_witness :
  LS_KEYS.BIRTH <> LS_KEYS.RESULT /\
  result (saveToLS LS_KEYS.BIRTH (JSString "2014-03-02") ;;
          readFromLS LS_KEYS.RESULT) restorable_world
  = Normal (JSString "出生日期必須早於現在").
Proof.
  split; [discriminate|].
  rewrite (saveToLS_other_key (H := refHost) LS_KEYS.BIRTH LS_KEYS.RESULT
             (JSString "2014-03-02") restorable_world) by discriminate.
  vm_compute; reflexivity.
Defined.

Lemma future_date_message_witness :
  is_finite (Date_parse ("2024-03-02" +:+ "T00:00:00")) = true /\
  (sample_clock <=? Date_parse ("2024-03-02" +:+ "T00:00:00"))%float = true /\
  resultDiv_textContent
    (dom (run performCalculation (sample_world "2024-03-02" 4096)))
  = "出生日期必須早於現在".
Proof.
  split; [vm_compute; reflexivity|]. split; [vm_compute; reflexivity|].
  apply (future_date_message (H := refHost) (sample_world "2024-03-02" 4096)).
  - discriminate.
  - vm_compute; reflexivity.
  - vm_compute; reflexivity.
  - vm_compute; reflexivity.
Defined.

Lemma past_date_accepted_witness :
  (1 <=? sample_clock - Date_parse ("2014-03-02" +:+ "T00:00:00"))%float = true /\
  (0 <? elapsed_years (sample_world "2014-03-02" 4096))%float = true /\
  resultDiv_textContent
    (dom (run performCalculation (sample_world "2014-03-02" 4096)))
  <> "請輸入有效的出生年月日" /\
  resultDiv_textContent
    (dom (run performCalculation (sample_world "2014-03-02" 4096)))
  <> "出生日期必須早於現在".
Proof.
  split; [vm_compute; reflexivity|].
  apply (past_date_accepted (H := refHost) (sample_world "2014-03-02" 4096)).
  - discriminate.
  - vm_compute; reflexivity.
Defined.

Lemma calculation_shows_ages_witness :
  Math_log_bounded_at (elapsed_years (sample_world "2014-03-02" 4096)) /\
  resultDiv_textContent
    (dom (run performCalculation (sample_world "2014-03-02" 4096)))
  = "狗狗現在大約 10 歲的狗年齡，" +:+ newline +:+ "換算成人類大約是 67.8 歲。".
Proof.
  assert (Hlog : Math_log_bounded_at (elapsed_years (sample_world "2014-03-02" 4096)))
    by (vm_compute; reflexivity).
  split; [exact Hlog|].
  etransitivity.
  - apply (calculation_shows_ages (H := refHost) (sample_world "2014-03-02" 4096)).
    + discriminate.
    + vm_compute; reflexivity.
    + exact Hlog.
  - vm_compute; reflexivity.
Defined.

Lemma onCalculateClick_saves_birth_witness :
  is_nan (Date_parse ("not-a-date" +:+ "T00:00:00")) = true /\
  resultDiv_textContent
    (dom (run onCalculateClick (sample_world "not-a-date" 4096)))
  = resultDiv_textContent
      (dom (run performCalculation (sample_world "not-a-date" 4096))) /\
  items (localStorage (run onCalculateClick (sample_world "not-a-date" 4096)))
    !! LS_KEYS.BIRTH
  = Some (RefHost.quote "not-a-date").
Proof.
  split; [vm_compute; reflexivity|].
  apply (onCalculateClick_saves_birth (H := refHost)
           (sample_world "not-a-date" 4096) (RefHost.quote "not-a-date")).
  - reflexivity.
  - vm_compute; reflexivity.
Defined.

Lemma handlers_keep_strings_witness :
  result (readFromLS LS_KEYS.RESULT)
    (run (handle OnClick) (sample_world "2014-03-02" 4096))
  = Normal JSNull \/
  exists s : string,
    result (readFromLS LS_KEYS.RESULT)
      (run (handle OnClick) (sample_world "2014-03-02" 4096))
    = Normal (JSString s).
Proof.
  apply (handlers_keep_strings (HL := refHost_laws) OnClick
           (sample_world "2014-03-02" 4096)).
  intros key. left. apply lookup_empty.
Defined.


Lemma birth_restored_witness :
  setItem_succeeds LS_KEYS.BIRTH (RefHost.quote "2014-03-02")
    (sample_world "2014-03-02" 4096) /\
  dateInput_value
    (dom (run initFromStorage
            (reload (run onDateChange (sample_world "2014-03-02" 4096)))))
  = input_sanitize "2014-03-02".
Proof.
  assert (Hs : setItem_succeeds LS_KEYS.BIRTH (RefHost.quote "2014-03-02")
                 (sample_world "2014-03-02" 4096)) by (vm_compute; reflexivity).
  split; [exact Hs|].
  apply (birth_restored (HL := refHost_laws) (sample_world "2014-03-02" 4096)
           (reload (run onDateChange (sample_world "2014-03-02" 4096)))
           (RefHost.quote "2014-03-02")).
  - discriminate.
  - reflexivity.
  - exact Hs.
  - reflexivity.
Defined.


Lemma initFromStorage_without_storage_witness :
  accessible (localStorage (disabled_world "2014-03-02")) = false /\
  dom (run initFromStorage (disabled_world "2014-03-02"))
  = mkDOM "2014-03-02" "" false "開燈" (Some "light") /\
  length (console (run initFromStorage (disabled_world "2014-03-02"))) = 4%nat.
Proof.
  split; [reflexivity|].
  unfold run.
  rewrite (initFromStorage_without_storage (H := refHost)
             (disabled_world "2014-03-02")) by reflexivity.
  split; reflexivity.
Defined.
